(** * Alert manager of the API gateway: a shallow embedding of
      [src/API_gateway.py] and the properties of its alert life cycle.

    The Python objects are modelled as follows.
    - An alert is a [dict] with a fixed set of string keys; it is the record
      [Alert], the keys that may be missing are [option] fields.
    - Alert dicts are shared: the same object is the value of
      [active_alerts\[id\]], an element of [alert_history] and the value the
      public methods return.  The model keeps the objects in a [heap]
      addressed by locations and stores locations everywhere else.
    - [active_alerts] is a Python dict, whose iteration order is insertion
      order: an association list without repeated keys.
    - Clock readings, the random identifier and the answers of the network
      are inputs of each call, gathered in [Env].
    - Time is counted in microseconds, the resolution of [datetime]; the
      rounding of the floating-point value of [time.time()] is not modelled. *)

From Stdlib Require Import ZArith String Ascii List Bool Lia.
From Stdlib Require Import DecimalString.
Import ListNotations.
Local Open Scope string_scope.
Local Open Scope Z_scope.

Set Implicit Arguments.

(** ** Python values *)

(** A JSON-like value, for the opaque [details] payload.  The model
    covers the payloads that are trees of these values: on them
    [json.dumps] returns.  A payload that holds another Python object (a
    set, a [datetime], ...) makes [json.dumps] raise [TypeError]; such
    payloads are outside [Json], and nothing below speaks of them. *)
#[local] Set Warnings "-register-all".
Inductive Json : Type :=
| JNull
| JBool (b : bool)
| JInt (z : Z)
| JStr (s : string)
| JList (l : list Json)
| JDict (l : list (string * Json)).
#[local] Set Warnings "register-all".

Definition Dict : Type := list (string * Json).

(** A naive [datetime] (no zone attached), as microseconds counted from
    1970-01-01T00:00:00 on its own calendar.  [isoformat] followed by
    [fromisoformat] is the identity on such values, so the stored string
    is identified with the value. *)
Definition datetime : Type := Z.

Definition loc : Type := nat.

(** [x or default] for an optional list argument: [None] and the empty
    list are both falsy. *)
Definition or_default {A : Type} (x : option (list A)) : list A :=
  match x with
  | Some (y :: ys) => y :: ys
  | _ => []
  end.

(** Truthiness of an optional string argument ([None] and [""] are falsy). *)
Definition truthy (x : option string) : bool :=
  match x with
  | Some s => negb (s =? "")%string
  | None => false
  end.

Definition upper_ascii (c : ascii) : ascii :=
  let n := nat_of_ascii c in
  if (Nat.leb 97 n && Nat.leb n 122)%bool then ascii_of_nat (n - 32) else c.

(** [str.upper()] on strings of ASCII characters: the letters a-z are
    raised, every other byte is kept.  Python also raises the letters
    outside ASCII; severities and messages with such letters are not
    covered. *)
Fixpoint upper (s : string) : string :=
  match s with
  | EmptyString => EmptyString
  | String c r => String (upper_ascii c) (upper r)
  end.

Definition newline : string := String (ascii_of_nat 10) EmptyString.

(** Exceptions; every class here derives from Python's [Exception]. *)
Inductive exn : Type :=
| ValueError (msg : string)
| KeyError (key : string)
| TypeError (msg : string)
| Exception (msg : string).

(** [str(e)] *)
Definition str (e : exn) : string :=
  match e with
  | ValueError m => m
  | KeyError k => "'" ++ k ++ "'"
  | TypeError m => m
  | Exception m => m
  end.

(** ** class AlertSeverity *)

Module AlertSeverity.
Definition INFO : string := "info".
Definition WARNING : string := "warning".
Definition ERROR : string := "error".
Definition CRITICAL : string := "critical".
End AlertSeverity.

(** ** The alert dict *)

Record Alert : Type := {
  a_id : string;
  a_type : string;
  a_source : string;
  a_severity : string;
  a_message : string;
  a_details : Dict;
  a_environment : string;
  a_related_entities : list string;
  a_created_at : datetime;
  a_updated_at : datetime;
  a_status : string;
  (* keys that are added later: [None] is a missing key *)
  a_count : option Z;
  a_resolved_at : option datetime;
  (* the key may be present with the value [None] *)
  a_resolution_message : option (option string)
}.

(** One [key, value] pair of an update dict. *)
Inductive Item : Type :=
| I_id (v : string)
| I_type (v : string)
| I_source (v : string)
| I_severity (v : string)
| I_message (v : string)
| I_details (v : Dict)
| I_environment (v : string)
| I_related_entities (v : list string)
| I_created_at (v : datetime)
| I_updated_at (v : datetime)
| I_status (v : string)
| I_count (v : Z)
| I_resolved_at (v : datetime)
| I_resolution_message (v : option string).

(** [alert\[key\] = value] *)
Definition setitem (a : Alert) (kv : Item) : Alert :=
  match kv with
  | I_id v => {| a_id := v; a_type := a_type a; a_source := a_source a;
      a_severity := a_severity a; a_message := a_message a;
      a_details := a_details a; a_environment := a_environment a;
      a_related_entities := a_related_entities a;
      a_created_at := a_created_at a; a_updated_at := a_updated_at a;
      a_status := a_status a; a_count := a_count a;
      a_resolved_at := a_resolved_at a;
      a_resolution_message := a_resolution_message a |}
  | I_type v => {| a_id := a_id a; a_type := v; a_source := a_source a;
      a_severity := a_severity a; a_message := a_message a;
      a_details := a_details a; a_environment := a_environment a;
      a_related_entities := a_related_entities a;
      a_created_at := a_created_at a; a_updated_at := a_updated_at a;
      a_status := a_status a; a_count := a_count a;
      a_resolved_at := a_resolved_at a;
      a_resolution_message := a_resolution_message a |}
  | I_source v => {| a_id := a_id a; a_type := a_type a; a_source := v;
      a_severity := a_severity a; a_message := a_message a;
      a_details := a_details a; a_environment := a_environment a;
      a_related_entities := a_related_entities a;
      a_created_at := a_created_at a; a_updated_at := a_updated_at a;
      a_status := a_status a; a_count := a_count a;
      a_resolved_at := a_resolved_at a;
      a_resolution_message := a_resolution_message a |}
  | I_severity v => {| a_id := a_id a; a_type := a_type a;
      a_source := a_source a; a_severity := v; a_message := a_message a;
      a_details := a_details a; a_environment := a_environment a;
      a_related_entities := a_related_entities a;
      a_created_at := a_created_at a; a_updated_at := a_updated_at a;
      a_status := a_status a; a_count := a_count a;
      a_resolved_at := a_resolved_at a;
      a_resolution_message := a_resolution_message a |}
  | I_message v => {| a_id := a_id a; a_type := a_type a;
      a_source := a_source a; a_severity := a_severity a; a_message := v;
      a_details := a_details a; a_environment := a_environment a;
      a_related_entities := a_related_entities a;
      a_created_at := a_created_at a; a_updated_at := a_updated_at a;
      a_status := a_status a; a_count := a_count a;
      a_resolved_at := a_resolved_at a;
      a_resolution_message := a_resolution_message a |}
  | I_details v => {| a_id := a_id a; a_type := a_type a;
      a_source := a_source a; a_severity := a_severity a;
      a_message := a_message a; a_details := v;
      a_environment := a_environment a;
      a_related_entities := a_related_entities a;
      a_created_at := a_created_at a; a_updated_at := a_updated_at a;
      a_status := a_status a; a_count := a_count a;
      a_resolved_at := a_resolved_at a;
      a_resolution_message := a_resolution_message a |}
  | I_environment v => {| a_id := a_id a; a_type := a_type a;
      a_source := a_source a; a_severity := a_severity a;
      a_message := a_message a; a_details := a_details a;
      a_environment := v; a_related_entities := a_related_entities a;
      a_created_at := a_created_at a; a_updated_at := a_updated_at a;
      a_status := a_status a; a_count := a_count a;
      a_resolved_at := a_resolved_at a;
      a_resolution_message := a_resolution_message a |}
  | I_related_entities v => {| a_id := a_id a; a_type := a_type a;
      a_source := a_source a; a_severity := a_severity a;
      a_message := a_message a; a_details := a_details a;
      a_environment := a_environment a; a_related_entities := v;
      a_created_at := a_created_at a; a_updated_at := a_updated_at a;
      a_status := a_status a; a_count := a_count a;
      a_resolved_at := a_resolved_at a;
      a_resolution_message := a_resolution_message a |}
  | I_created_at v => {| a_id := a_id a; a_type := a_type a;
      a_source := a_source a; a_severity := a_severity a;
      a_message := a_message a; a_details := a_details a;
      a_environment := a_environment a;
      a_related_entities := a_related_entities a;
      a_created_at := v; a_updated_at := a_updated_at a;
      a_status := a_status a; a_count := a_count a;
      a_resolved_at := a_resolved_at a;
      a_resolution_message := a_resolution_message a |}
  | I_updated_at v => {| a_id := a_id a; a_type := a_type a;
      a_source := a_source a; a_severity := a_severity a;
      a_message := a_message a; a_details := a_details a;
      a_environment := a_environment a;
      a_related_entities := a_related_entities a;
      a_created_at := a_created_at a; a_updated_at := v;
      a_status := a_status a; a_count := a_count a;
      a_resolved_at := a_resolved_at a;
      a_resolution_message := a_resolution_message a |}
  | I_status v => {| a_id := a_id a; a_type := a_type a;
      a_source := a_source a; a_severity := a_severity a;
      a_message := a_message a; a_details := a_details a;
      a_environment := a_environment a;
      a_related_entities := a_related_entities a;
      a_created_at := a_created_at a; a_updated_at := a_updated_at a;
      a_status := v; a_count := a_count a;
      a_resolved_at := a_resolved_at a;
      a_resolution_message := a_resolution_message a |}
  | I_count v => {| a_id := a_id a; a_type := a_type a;
      a_source := a_source a; a_severity := a_severity a;
      a_message := a_message a; a_details := a_details a;
      a_environment := a_environment a;
      a_related_entities := a_related_entities a;
      a_created_at := a_created_at a; a_updated_at := a_updated_at a;
      a_status := a_status a; a_count := Some v;
      a_resolved_at := a_resolved_at a;
      a_resolution_message := a_resolution_message a |}
  | I_resolved_at v => {| a_id := a_id a; a_type := a_type a;
      a_source := a_source a; a_severity := a_severity a;
      a_message := a_message a; a_details := a_details a;
      a_environment := a_environment a;
      a_related_entities := a_related_entities a;
      a_created_at := a_created_at a; a_updated_at := a_updated_at a;
      a_status := a_status a; a_count := a_count a;
      a_resolved_at := Some v;
      a_resolution_message := a_resolution_message a |}
  | I_resolution_message v => {| a_id := a_id a; a_type := a_type a;
      a_source := a_source a; a_severity := a_severity a;
      a_message := a_message a; a_details := a_details a;
      a_environment := a_environment a;
      a_related_entities := a_related_entities a;
      a_created_at := a_created_at a; a_updated_at := a_updated_at a;
      a_status := a_status a; a_count := a_count a;
      a_resolved_at := a_resolved_at a;
      a_resolution_message := Some v |}
  end.

(** [alert.get("count", default)] *)
Definition get_count (a : Alert) (default : Z) : Z :=
  match a_count a with
  | Some c => c
  | None => default
  end.

(** ** Python dicts with string keys, in insertion order *)

Section Dicts.
Variable V : Type.

(** [d.get(k)] *)
Fixpoint dict_get (k : string) (d : list (string * V)) : option V :=
  match d with
  | [] => None
  | (k', v) :: rest =>
      if (k' =? k)%string then Some v else dict_get k rest
  end.

(** [d\[k\] = v]: an existing key keeps its position, a new key goes
    last. *)
Fixpoint dict_set (k : string) (v : V) (d : list (string * V))
  : list (string * V) :=
  match d with
  | [] => [(k, v)]
  | (k', v') :: rest =>
      if (k' =? k)%string then (k', v) :: rest
      else (k', v') :: dict_set k v rest
  end.

Definition keys (d : list (string * V)) : list string := map fst d.
Definition values (d : list (string * V)) : list V := map snd d.
End Dicts.

(** ** Configuration *)

Record EmailConfig : Type := {
  email_enabled : bool;
  recipients : list string
}.

Record SlackConfig : Type := {
  slack_enabled : bool;
  webhook_url : string
}.

Record PagerDutyConfig : Type := {
  pagerduty_enabled : bool;
  service_key : string
}.

(** The keys of the configuration that the alert manager reads (the
    [thresholds] table is read by nothing in this file). *)
Record Config : Type := {
  notification_email : EmailConfig;
  notification_slack : SlackConfig;
  notification_pagerduty : PagerDutyConfig;
  deduplication_window : Z;      (* seconds *)
  auto_resolve_time : Z          (* seconds *)
}.

Definition default_config : Config := {|
  notification_email :=
    {| email_enabled := true; recipients := ["ops@example.com"] |};
  notification_slack :=
    {| slack_enabled := true;
       webhook_url := "https://hooks.slack.com/services/XXX/YYY/ZZZ" |};
  notification_pagerduty :=
    {| pagerduty_enabled := false;
       service_key := "your_pagerduty_service_key" |};
  deduplication_window := 300;
  auto_resolve_time := 3600
|}.

(** [_load_config]: [file] is the parsed content of the configuration
    file, [None] when the file does not exist.  A [Config] has every key
    in place, with a value of the expected type: this is the
    configuration file that is well formed.  The code returns the content
    of the file unchecked; what [create_alert] does with a file in which
    ["deduplication_window"] is missing or is no number is modelled apart,
    in [Unchecked] below. *)
Definition _load_config (file : option Config) : Config :=
  match file with
  | Some c => c
  | None => default_config
  end.

(** ** What a notifier does *)

Record SlackAttachment : Type := {
  fallback : string;
  color : string;
  title : string;
  text : string;
  text_time : option datetime;  (* the time printed at the end of text *)
  fields : option Dict;      (* the "Details" field, absent on resolution *)
  footer : string;
  ts : Z
}.

Inductive PagerDutyDetails : Type :=
| DetailsAlert (a : Alert)
| DetailsResolution (resolution_message : option string)
                    (resolved_at : datetime).

Record PagerDutyEvent : Type := {
  pd_service_key : string;
  event_type : string;
  incident_key : string;
  description : string;
  pd_details : PagerDutyDetails
}.

Inductive Payload : Type :=
| SlackPayload (attachment : SlackAttachment)
| PagerDutyPayload (event : PagerDutyEvent).

(** The observable actions of a notifier. *)
Inductive Effect : Type :=
| Stdout (line : string) (recipients : list string) (subject : string)
    (* print(f"{line} {recipients} with subject: {subject}") *)
| HttpPost (url : string) (json : Payload).

(** The clock, the random generator and the network, as one call of a
    public method sees them. *)
Record Env : Type := {
  (* str(uuid.uuid4()) *)
  uuid4 : string;
  (* the n-th value of datetime.utcnow() during the call *)
  utcnow : nat -> datetime;
  (* time.time(), in microseconds *)
  time_time : Z;
  (* datetime.timestamp() of a naive value: the host reads it as local
     time; in microseconds.  The identity on a host whose zone is UTC. *)
  timestamp : datetime -> Z;
  (* requests.post(url, json=...) followed by raise_for_status():
     [None] when both return, [Some msg] when a RequestException whose
     text is [msg] is raised *)
  requests_post : string -> Payload -> option string
}.

(** A computation of a notifier: the effects it performed, then its
    result or the exception it raised. *)
Definition Action (A : Type) : Type := (list Effect * (exn + A))%type.

Definition ret {A : Type} (x : A) : Action A := ([], inr x).
Definition raise {A : Type} (e : exn) : Action A := ([], inl e).
Definition perform (f : Effect) : Action unit := ([f], inr tt).

Definition bind {A B : Type} (m : Action A) (k : A -> Action B) : Action B :=
  match m with
  | (fx, inl e) => (fx, inl e)
  | (fx, inr x) => let (fx', r) := k x in ((fx ++ fx')%list, r)
  end.

Notation "x <- m ;; k" := (bind m (fun x => k))
  (at level 61, m at next level, right associativity).
Notation "m ;;; k" := (bind m (fun _ => k))
  (at level 61, right associativity).

(** [alert\["resolved_at"\]] *)
Definition getitem_resolved_at (a : Alert) : Action datetime :=
  match a_resolved_at a with
  | Some t => ret t
  | None => raise (KeyError "resolved_at")
  end.

(** [requests.post] inside [try ... except RequestException as e:
    raise Exception(prefix + str(e))]. *)
Definition post_or_raise (env : Env) (url : string) (p : Payload)
    (prefix : string) : Action unit :=
  perform (HttpPost url p) ;;;
  match requests_post env url p with
  | None => ret tt
  | Some msg => raise (Exception (prefix ++ msg))
  end.

(** The channel contract.  A notifier reads the alert it is given; no
    notifier of this file writes to it or to the manager. *)
Record Notifier : Type := {
  send_alert : Env -> Alert -> Action unit;
  send_resolution : Env -> Alert -> Action unit
}.

(** ** class EmailNotifier *)

Module EmailNotifier.
Definition send_alert (config : EmailConfig) (env : Env) (alert : Alert)
  : Action unit :=
  let recipients := recipients config in
  let subject := "[" ++ upper (a_severity alert) ++ "] " ++ a_message alert in
  (* body = json.dumps(alert, indent=2) is computed and not used; it
     returns, the details being a [Json] tree *)
  perform (Stdout "Sending email to" recipients subject).

Definition send_resolution (config : EmailConfig) (env : Env)
    (alert : Alert) : Action unit :=
  let recipients := recipients config in
  let subject := "[RESOLVED] " ++ a_message alert in
  (* the body reads alert['resolved_at'] *)
  _ <- getitem_resolved_at alert ;;
  perform (Stdout "Sending resolution email to" recipients subject).

Definition new (config : EmailConfig) : Notifier :=
  Build_Notifier (send_alert config) (send_resolution config).
End EmailNotifier.

(** ** class SlackNotifier *)

Module SlackNotifier.
Definition color_map : list (string * string) :=
  [("info", "#439FE0"); ("warning", "#FFCC00");
   ("error", "#FF9000"); ("critical", "#FF0000")].

Definition color_of (severity : string) : string :=
  match dict_get severity color_map with
  | Some c => c
  | None => "#439FE0"
  end.

(** [int(x)] of a time in microseconds, as whole seconds. *)
Definition int_seconds (t : Z) : Z := Z.quot t 1000000.

Definition send_alert (config : SlackConfig) (env : Env) (alert : Alert)
  : Action unit :=
  let webhook_url := webhook_url config in
  let payload := SlackPayload {|
    fallback := a_message alert;
    color := color_of (a_severity alert);
    title := "[" ++ upper (a_severity alert) ++ "] " ++ a_message alert;
    text := "*Source*: " ++ a_source alert ++ newline
            ++ "*Environment*: " ++ a_environment alert;
    text_time := None;
    (* json.dumps(alert["details"], indent=2): it returns, the details
       being a [Json] tree *)
    fields := Some (a_details alert);
    footer := "Alert ID: " ++ a_id alert;
    ts := int_seconds (timestamp env (a_created_at alert)) |} in
  post_or_raise env webhook_url payload
    "Failed to send Slack notification: ".

Definition send_resolution (config : SlackConfig) (env : Env)
    (alert : Alert) : Action unit :=
  let webhook_url := webhook_url config in
  resolved_at <- getitem_resolved_at alert ;;
  let payload := SlackPayload {|
    fallback := "RESOLVED: " ++ a_message alert;
    color := "#36A64F";
    title := "RESOLVED: " ++ a_message alert;
    text := "Alert has been resolved at ";
    text_time := Some resolved_at;
    fields := None;
    footer := "Alert ID: " ++ a_id alert;
    ts := int_seconds (timestamp env resolved_at) |} in
  post_or_raise env webhook_url payload
    "Failed to send Slack resolution notification: ".

Definition new (config : SlackConfig) : Notifier :=
  Build_Notifier (send_alert config) (send_resolution config).
End SlackNotifier.

(** ** class PagerDutyNotifier *)

Module PagerDutyNotifier.
Definition events_url : string :=
  "https://events.pagerduty.com/generic/2010-04-15/create_event.json".

Definition send_alert (config : PagerDutyConfig) (env : Env)
    (alert : Alert) : Action unit :=
  let service_key := service_key config in
  (* Only create PagerDuty incidents for error and critical alerts *)
  if negb ((a_severity alert =? AlertSeverity.ERROR)%string
           || (a_severity alert =? AlertSeverity.CRITICAL)%string)
  then ret tt
  else
    let payload := PagerDutyPayload {|
      pd_service_key := service_key;
      event_type := "trigger";
      incident_key := a_id alert;
      description := a_message alert;
      pd_details := DetailsAlert alert |} in
    post_or_raise env events_url payload
      "Failed to create PagerDuty incident: ".

Definition send_resolution (config : PagerDutyConfig) (env : Env)
    (alert : Alert) : Action unit :=
  let service_key := service_key config in
  let resolution_message :=
    match a_resolution_message alert with
    | Some m => m
    | None => Some "Alert resolved"
    end in
  resolved_at <- getitem_resolved_at alert ;;
  let payload := PagerDutyPayload {|
    pd_service_key := service_key;
    event_type := "resolve";
    incident_key := a_id alert;
    description := "RESOLVED: " ++ a_message alert;
    pd_details := DetailsResolution resolution_message resolved_at |} in
  post_or_raise env events_url payload
    "Failed to resolve PagerDuty incident: ".

Definition new (config : PagerDutyConfig) : Notifier :=
  Build_Notifier (send_alert config) (send_resolution config).
End PagerDutyNotifier.

(** ** class AlertManager *)

Record AlertManager : Type := {
  config : Config;
  active_alerts : list (string * loc);
  alert_history : list loc;
  notification_services : list (string * Notifier);
  (* the alert dicts the two containers point to *)
  heap : loc -> Alert;
  next_loc : loc
}.

Inductive Op : Type := OpSendAlert | OpSendResolution.

(** What a public method does besides changing the manager: the calls
    into the notifiers, each with what the notifier did and how it ended,
    and the lines the manager prints itself. *)
Inductive Event : Type :=
| Call (service_name : string) (op : Op) (alert : Alert)
       (effects : list Effect) (result : exn + unit)
| Print (line : string).

Record Outcome (A : Type) : Type := {
  final : AlertManager;
  trace : list Event;
  value : exn + A
}.

(** [heap\[l\] = a] *)
Definition store (self : AlertManager) (l : loc) (a : Alert) : AlertManager :=
  {| config := config self;
     active_alerts := active_alerts self;
     alert_history := alert_history self;
     notification_services := notification_services self;
     heap := fun l' => if Nat.eqb l' l then a else heap self l';
     next_loc := next_loc self |}.

Definition _initialize_notification_services (config : Config)
  : list (string * Notifier) :=
  let services := [] in
  let services :=
    if email_enabled (notification_email config)
    then dict_set "email" (EmailNotifier.new (notification_email config))
           services
    else services in
  let services :=
    if slack_enabled (notification_slack config)
    then dict_set "slack" (SlackNotifier.new (notification_slack config))
           services
    else services in
  let services :=
    if pagerduty_enabled (notification_pagerduty config)
    then dict_set "pagerduty"
           (PagerDutyNotifier.new (notification_pagerduty config)) services
    else services in
  services.

Definition blank : Alert := {|
  a_id := ""; a_type := ""; a_source := ""; a_severity := "";
  a_message := ""; a_details := []; a_environment := "";
  a_related_entities := []; a_created_at := 0; a_updated_at := 0;
  a_status := ""; a_count := None; a_resolved_at := None;
  a_resolution_message := None |}.

(** [AlertManager.__init__] *)
Definition init (file : option Config) : AlertManager :=
  let config := _load_config file in
  {| config := config;
     active_alerts := [];
     alert_history := [];
     notification_services := _initialize_notification_services config;
     heap := fun _ => blank;
     next_loc := 0%nat |}.

(** The four comparisons at the end of the loop body of
    [_check_for_duplicate]. *)
Definition similar (existing_alert alert : Alert) : bool :=
  ((a_type existing_alert =? a_type alert)%string
   && (a_source existing_alert =? a_source alert)%string
   && (a_severity existing_alert =? a_severity alert)%string
   && (a_environment existing_alert =? a_environment alert)%string)%bool.

(** The body of the loop of [_check_for_duplicate] says [continue] on
    [existing_alert].  Times are whole microseconds, the resolution of a
    [datetime], and the comparison is exact; the code compares the two
    floats of [time.time()] and [timestamp()], whose rounding (well under
    a microsecond at present dates) is not modelled.  The age is the
    code's: [timestamp env] reads the stored naive UTC time as local
    time. *)
Definition skipped (env : Env) (dedup_window : Z) (existing_alert : Alert)
  : bool :=
  if negb (a_status existing_alert =? "active")%string then true
  else
    let current_time := time_time env in
    let existing_time := timestamp env (a_created_at existing_alert) in
    current_time - existing_time >? dedup_window * 1000000.

Fixpoint first_duplicate (env : Env) (dedup_window : Z) (heap : loc -> Alert)
    (alert : Alert) (items : list (string * loc)) : option loc :=
  match items with
  | [] => None
  | (existing_id, l) :: rest =>
      let existing_alert := heap l in
      if skipped env dedup_window existing_alert
      then first_duplicate env dedup_window heap alert rest
      else if similar existing_alert alert then Some l
      else first_duplicate env dedup_window heap alert rest
  end.

Definition _check_for_duplicate (env : Env) (self : AlertManager)
    (alert : Alert) : option loc :=
  let dedup_window := deduplication_window (config self) in
  first_duplicate env dedup_window (heap self) alert (active_alerts self).

(** [now] is the value of [datetime.utcnow()] at the end of the method. *)
Definition _update_alert (self : AlertManager) (now : datetime)
    (alert_id : string) (update_data : list Item)
  : AlertManager * (exn + loc) :=
  match dict_get alert_id (active_alerts self) with
  | None =>
      (self, inl (ValueError ("Alert with ID " ++ alert_id ++ " not found")))
  | Some l =>
      let alert := heap self l in
      let alert := fold_left setitem update_data alert in
      let alert := setitem alert (I_updated_at now) in
      (store self l alert, inr l)
  end.

(** [service.send_alert(alert)] or [service.send_resolution(alert)] *)
Definition invoke (op : Op) (service : Notifier) (env : Env) (alert : Alert)
  : Action unit :=
  match op with
  | OpSendAlert => send_alert service env alert
  | OpSendResolution => send_resolution service env alert
  end.

(** The loop over [notification_services.items()], each call inside
    [try ... except Exception as e: print(...)]. *)
Fixpoint dispatch (env : Env) (op : Op) (failed : string -> string -> string)
    (services : list (string * Notifier)) (alert : Alert) : list Event :=
  match services with
  | [] => []
  | (service_name, service) :: rest =>
      let (effects, result) := invoke op service env alert in
      (Call service_name op alert effects result
       :: match result with
          | inr _ => []
          | inl e => [Print (failed service_name (str e))]
          end
       ++ dispatch env op failed rest alert)%list
  end.

Definition _send_notifications (env : Env) (self : AlertManager)
    (alert : Alert) : list Event :=
  (* Only send notifications for warning, error, and critical alerts *)
  if (a_severity alert =? AlertSeverity.INFO)%string then []
  else
    dispatch env OpSendAlert
      (fun service_name e =>
         "Failed to send " ++ service_name ++ " notification: " ++ e)
      (notification_services self) alert.

Definition _send_resolution_notification (env : Env) (self : AlertManager)
    (alert : Alert) : list Event :=
  (* Only send resolution notifications for error and critical alerts *)
  if negb ((a_severity alert =? AlertSeverity.ERROR)%string
           || (a_severity alert =? AlertSeverity.CRITICAL)%string)
  then []
  else
    dispatch env OpSendResolution
      (fun service_name e =>
         "Failed to send " ++ service_name
         ++ " resolution notification: " ++ e)
      (notification_services self) alert.

(** The dict that [create_alert] builds before it looks for a duplicate. *)
Definition new_alert (env : Env)
    (alert_type source severity message : string) (details : option Dict)
    (environment : string) (related_entities : option (list string))
  : Alert :=
  let alert_id := uuid4 env in
  {| a_id := alert_id;
     a_type := alert_type;
     a_source := source;
     a_severity := severity;
     a_message := message;
     a_details := or_default details;
     a_environment := environment;
     a_related_entities := or_default related_entities;
     a_created_at := utcnow env 0;
     a_updated_at := utcnow env 1;
     a_status := "active";
     a_count := None;
     a_resolved_at := None;
     a_resolution_message := None |}.

Definition create_alert (env : Env) (self : AlertManager)
    (alert_type source severity message : string) (details : option Dict)
    (environment : string) (related_entities : option (list string))
  : Outcome loc :=
  let alert_id := uuid4 env in
  let alert :=
    new_alert env alert_type source severity message details environment
      related_entities in
  match _check_for_duplicate env self alert with
  | Some duplicate_alert =>
      (* Update existing alert instead of creating new one *)
      let existing := heap self duplicate_alert in
      let (self, r) :=
        _update_alert self (utcnow env 2) (a_id existing)
          [I_count (get_count existing 1 + 1);
           I_updated_at (a_updated_at alert)] in
      match r with
      | inl e => {| final := self; trace := []; value := inl e |}
      | inr _ => {| final := self; trace := []; value := inr duplicate_alert |}
      end
  | None =>
      let alert := setitem alert (I_count 1) in
      (* the dict built above becomes a shared object *)
      let l := next_loc self in
      let self := {|
        config := config self;
        active_alerts := dict_set alert_id l (active_alerts self);
        alert_history := (alert_history self ++ [l])%list;
        notification_services := notification_services self;
        heap := fun l' => if Nat.eqb l' l then alert else heap self l';
        next_loc := S l |} in
      let sent := _send_notifications env self alert in
      {| final := self; trace := sent; value := inr l |}
  end.

Definition resolve_alert (env : Env) (self : AlertManager)
    (alert_id : string) (resolution_message : option string)
  : Outcome loc :=
  match dict_get alert_id (active_alerts self) with
  | None =>
      {| final := self; trace := [];
         value :=
           inl (ValueError ("Alert with ID " ++ alert_id ++ " not found")) |}
  | Some l =>
      let alert := heap self l in
      let alert := setitem alert (I_status "resolved") in
      let alert := setitem alert (I_resolved_at (utcnow env 0)) in
      let alert := setitem alert (I_resolution_message resolution_message) in
      let self := store self l alert in
      let sent := _send_resolution_notification env self alert in
      {| final := self; trace := sent; value := inr l |}
  end.

(** [value != wanted], for an argument [wanted] that is a string or
    [None]. *)
Definition differs (value : string) (wanted : option string) : bool :=
  match wanted with
  | Some w => negb (value =? w)%string
  | None => true
  end.

(** The loop body of [get_active_alerts] reaches [append] on [alert]. *)
Definition selected (environment severity source : option string)
    (alert : Alert) : bool :=
  if negb (a_status alert =? "active")%string then false
  else if (truthy environment
           && differs (a_environment alert) environment)%bool then false
  else if (truthy severity
           && differs (a_severity alert) severity)%bool then false
  else if (truthy source
           && differs (a_source alert) source)%bool then false
  else true.

Definition get_active_alerts (self : AlertManager)
    (environment severity source : option string) : list loc :=
  filter (fun l => selected environment severity source (heap self l))
    (values (active_alerts self)).

Definition get_alert_by_id (self : AlertManager) (alert_id : string)
  : option loc :=
  dict_get alert_id (active_alerts self).

(** * The manager on a configuration file that nothing has checked *)

(** [_load_config] returns what [json.load] found in the file, and no
    method checks it.  The methods above are the methods on a configuration
    in which every key that they read is there.  Of the reads that can
    fail, one is outside every [try]: [self.config\["deduplication_window"\]]
    in [_check_for_duplicate], on each call of [create_alert].  [Unchecked]
    models these two methods with the configuration as the JSON object
    that the file holds ([__init__] has read [config\["notification"\]]
    from it, so it is an object).  A JSON number with a fraction is outside
    [Json]. *)
Module Unchecked.

(** [type(w).__name__] of a parsed JSON value. *)
Definition type_name (w : Json) : string :=
  match w with
  | JNull => "NoneType"
  | JBool _ => "bool"
  | JInt _ => "int"
  | JStr _ => "str"
  | JList _ => "list"
  | JDict _ => "dict"
  end.

(** [age > dedup_window] for the float [age], in microseconds here, and
    the parsed JSON value [dedup_window], in seconds; [True] and [False]
    count as 1 and 0. *)
Definition gt (age : Z) (dedup_window : Json) : exn + bool :=
  match dedup_window with
  | JInt n => inr (age >? n * 1000000)
  | JBool b => inr (age >? (if b then 1 else 0) * 1000000)
  | w =>
      inl (TypeError ("'>' not supported between instances of 'float' and '"
                      ++ type_name w ++ "'"))
  end.

Fixpoint first_duplicate (env : Env) (dedup_window : Json)
    (heap : loc -> Alert) (alert : Alert) (items : list (string * loc))
  : exn + option loc :=
  match items with
  | [] => inr None
  | (existing_id, l) :: rest =>
      let existing_alert := heap l in
      (* Skip if alert is already resolved *)
      if negb (a_status existing_alert =? "active")%string
      then first_duplicate env dedup_window heap alert rest
      else
        let current_time := time_time env in
        let existing_time := timestamp env (a_created_at existing_alert) in
        match gt (current_time - existing_time) dedup_window with
        | inl e => inl e
        | inr true => first_duplicate env dedup_window heap alert rest
        | inr false =>
            if similar existing_alert alert then inr (Some l)
            else first_duplicate env dedup_window heap alert rest
        end
  end.

Definition _check_for_duplicate (env : Env) (config_file : Dict)
    (self : AlertManager) (alert : Alert) : exn + option loc :=
  match dict_get "deduplication_window" config_file with
  | None => inl (KeyError "deduplication_window")
  | Some dedup_window =>
      first_duplicate env dedup_window (heap self) alert (active_alerts self)
  end.

Definition create_alert (env : Env) (config_file : Dict)
    (self : AlertManager)
    (alert_type source severity message : string) (details : option Dict)
    (environment : string) (related_entities : option (list string))
  : Outcome loc :=
  let alert_id := uuid4 env in
  let alert :=
    new_alert env alert_type source severity message details environment
      related_entities in
  match _check_for_duplicate env config_file self alert with
  | inl e => {| final := self; trace := []; value := inl e |}
  | inr (Some duplicate_alert) =>
      let existing := heap self duplicate_alert in
      let (self, r) :=
        _update_alert self (utcnow env 2) (a_id existing)
          [I_count (get_count existing 1 + 1);
           I_updated_at (a_updated_at alert)] in
      match r with
      | inl e => {| final := self; trace := []; value := inl e |}
      | inr _ => {| final := self; trace := []; value := inr duplicate_alert |}
      end
  | inr None =>
      let alert := setitem alert (I_count 1) in
      let l := next_loc self in
      let self := {|
        config := config self;
        active_alerts := dict_set alert_id l (active_alerts self);
        alert_history := (alert_history self ++ [l])%list;
        notification_services := notification_services self;
        heap := fun l' => if Nat.eqb l' l then alert else heap self l';
        next_loc := S l |} in
      let sent := _send_notifications env self alert in
      {| final := self; trace := sent; value := inr l |}
  end.

End Unchecked.

(** The value under ["deduplication_window"] is one that a float can be
    compared with: an integer or a boolean. *)
Definition numeric (w : Json) : bool :=
  match w with
  | JInt _ | JBool _ => true
  | _ => false
  end.

(** Some stored alert is active. *)
Definition has_active (self : AlertManager) : Prop :=
  exists l, In l (values (active_alerts self))
            /\ a_status (heap self l) = "active".

(** * Vocabulary of the properties *)

(** ** The representation invariant of the manager *)

(** What every manager built by [init] and changed only by the public
    methods satisfies: keys and objects of [active_alerts] are pairwise
    distinct, each alert is filed under its own ["id"], carries a count of
    at least one, and every location in use has been allocated. *)
Record wf (self : AlertManager) : Prop := {
  wf_keys : NoDup (keys (active_alerts self));
  wf_locs : NoDup (values (active_alerts self));
  wf_id : forall k l, In (k, l) (active_alerts self) ->
            a_id (heap self l) = k;
  wf_count : forall l, In l (values (active_alerts self)) ->
            exists c, a_count (heap self l) = Some c /\ 1 <= c;
  wf_alloc : forall l, In l (values (active_alerts self)) ->
            (l < next_loc self)%nat;
  wf_hist : forall l, In l (alert_history self) -> (l < next_loc self)%nat
}.

(** The managers that a program can build. *)
Inductive reachable : AlertManager -> Prop :=
| reach_init file : reachable (init file)
| reach_create env self ty src sev msg det envir rel :
    reachable self ->
    reachable (final (create_alert env self ty src sev msg det envir rel))
| reach_resolve env self alert_id resolution_message :
    reachable self ->
    reachable (final (resolve_alert env self alert_id resolution_message)).

(** ** Duplicates, merges, the history and the calls *)

(** The test that the loop of [_check_for_duplicate] makes, as a
    proposition: [l] holds an active alert with the signature given, and
    the age that the code computes for it, [time.time()] minus
    [timestamp()] of the stored [created_at], does not exceed the window.
    This age is the time elapsed since the alert was created only on a
    host whose zone is UTC (see [recent_duplicate]). *)
Definition fresh_duplicate (env : Env) (self : AlertManager)
    (alert_type source severity environment : string) (l : loc) : Prop :=
  let existing := heap self l in
  a_status existing = "active"
  /\ time_time env - timestamp env (a_created_at existing)
     <= deduplication_window (config self) * 1000000
  /\ a_type existing = alert_type
  /\ a_source existing = source
  /\ a_severity existing = severity
  /\ a_environment existing = environment.

(** Some stored alert is a fresh, active duplicate of the signature. *)
Definition has_fresh_duplicate (env : Env) (self : AlertManager)
    (alert_type source severity environment : string) : Prop :=
  exists l, In l (values (active_alerts self))
            /\ fresh_duplicate env self alert_type source severity
                 environment l.

(** The words of the specification: [l] holds an active alert with the
    signature given, created no longer ago than the deduplication window.
    [created_at] is a reading of [datetime.utcnow()], the UTC clock, so the
    time elapsed since the creation is [time.time()] minus that reading. *)
Definition recent_duplicate (env : Env) (self : AlertManager)
    (alert_type source severity environment : string) (l : loc) : Prop :=
  let existing := heap self l in
  a_status existing = "active"
  /\ time_time env - a_created_at existing
     <= deduplication_window (config self) * 1000000
  /\ a_type existing = alert_type
  /\ a_source existing = source
  /\ a_severity existing = severity
  /\ a_environment existing = environment.

(** The loop of [_check_for_duplicate] returns at the object [l]. *)
Definition hit (env : Env) (w : Z) (h : loc -> Alert) (alert : Alert)
    (l : loc) : bool :=
  negb (skipped env w (h l)) && similar (h l) alert.

(** What a merge leaves in the existing dict. *)
Definition merged (env : Env) (existing : Alert) : Alert :=
  setitem
    (fold_left setitem
       [I_count (get_count existing 1 + 1); I_updated_at (utcnow env 1)]
       existing)
    (I_updated_at (utcnow env 2)).

(** The manager after a new alert has been stored. *)
Definition stored (env : Env) (self : AlertManager) (alert : Alert)
  : AlertManager :=
  {| config := config self;
     active_alerts := dict_set (uuid4 env) (next_loc self) (active_alerts self);
     alert_history := (alert_history self ++ [next_loc self])%list;
     notification_services := notification_services self;
     heap := fun l' => if Nat.eqb l' (next_loc self) then alert
                       else heap self l';
     next_loc := S (next_loc self) |}.

(** What [resolve_alert] leaves in the dict. *)
Definition resolved (env : Env) (resolution_message : option string)
    (alert : Alert) : Alert :=
  setitem
    (setitem (setitem alert (I_status "resolved"))
       (I_resolved_at (utcnow env 0)))
    (I_resolution_message resolution_message).

(** The alerts that the history shows, oldest first. *)
Definition history_view (self : AlertManager) : list Alert :=
  map (heap self) (alert_history self).

(** The words of the specification about the history: the call appends
    the state of the alert it returns, as it is at that moment, to the
    log, and the entries logged before read as they did. *)
Definition logs_a_snapshot (self : AlertManager) (o : Outcome loc) : Prop :=
  forall l, value o = inr l ->
    history_view (final o) = (history_view self ++ [heap (final o) l])%list.

(** The names of the services on which [op] was called, in order. *)
Fixpoint calls (op : Op) (t : list Event) : list string :=
  match t with
  | [] => []
  | Call service_name op' _ _ _ :: rest =>
      match op, op' with
      | OpSendAlert, OpSendAlert
      | OpSendResolution, OpSendResolution =>
          service_name :: calls op rest
      | _, _ => calls op rest
      end
  | Print _ :: rest => calls op rest
  end.

(** A filter argument that is [None] or [""] lets every value pass; any
    other wants the value equal to it. *)
Definition passes (value : string) (wanted : option string) : Prop :=
  match wanted with
  | None => True
  | Some w => w = "" \/ value = w
  end.

(** ** Scenarios *)

(** A host whose zone is UTC, at time [t], that draws the identifier
    [id]; the network answers [net] to every request. *)
Definition utc_host (id : string) (t : Z) (net : option string) : Env :=
  {| uuid4 := id;
     utcnow := fun _ => t;
     time_time := t;
     timestamp := fun d => d;
     requests_post := fun _ _ => net |}.

Definition second : Z := 1000000.

(** A host whose zone is [offset] east of UTC, at the instant [t]:
    [utcnow()] and [time.time()] both read [t], and [timestamp()] takes a
    naive value for local time, which is [offset] ahead of UTC. *)
Definition zoned_host (offset : Z) (id : string) (t : Z)
    (net : option string) : Env :=
  {| uuid4 := id;
     utcnow := fun _ => t;
     time_time := t;
     timestamp := fun d => d - offset;
     requests_post := fun _ _ => net |}.

(** UTC+05:30 and UTC-05:00. *)
Definition east : Z := 19800 * second.
Definition west : Z := - (18000 * second).

(** The manager with the default configuration, before any call. *)
Definition manager0 : AlertManager := init None.

(** After one warning about the latency of the checkout API. *)
Definition manager1 : AlertManager :=
  final (create_alert (utc_host "id-1" (100 * second) None) manager0
           "latency_spike" "checkout-api" "warning" "p99 above threshold"
           None "prod" None).

(** The same first warning on a host at UTC+05:30 and on a host at
    UTC-05:00. *)
Definition manager_east : AlertManager :=
  final (create_alert (zoned_host east "id-1" (100 * second) None) manager0
           "latency_spike" "checkout-api" "warning" "p99 above threshold"
           None "prod" None).

Definition manager_west : AlertManager :=
  final (create_alert (zoned_host west "id-1" (100 * second) None) manager0
           "latency_spike" "checkout-api" "warning" "p99 above threshold"
           None "prod" None).

(** After one warning, merged once more a second later. *)
Definition manager2 : AlertManager :=
  final (create_alert (utc_host "id-2" (101 * second) None) manager1
           "latency_spike" "checkout-api" "warning" "p99 still high"
           (Some [("p99", JInt 950)]) "prod" None).

(** A critical alert on the payment API, then resolved. *)
Definition manager3 : AlertManager :=
  final (create_alert (utc_host "id-3" (200 * second) None) manager0
           "error_rate" "payment-api" "critical" "5xx above 10%"
           None "prod" None).

Definition manager4 : AlertManager :=
  final (resolve_alert (utc_host "" (260 * second) None) manager3
           "id-3" (Some "rolled back deploy")).

(** All three channels enabled. *)
Definition config_all : Config := {|
  notification_email := notification_email default_config;
  notification_slack := notification_slack default_config;
  notification_pagerduty :=
    {| pagerduty_enabled := true; service_key := "key" |};
  deduplication_window := 300;
  auto_resolve_time := 3600
|}.

(** The manager with all three channels, before any call. *)
Definition manager_all : AlertManager := init (Some config_all).

(** ** Sequences of calls *)

(** One call of a public method that changes the manager, with what the
    environment answers during the call. *)
Inductive Request : Type :=
| CreateAlert (env : Env) (alert_type source severity message : string)
    (details : option Dict) (environment : string)
    (related_entities : option (list string))
| ResolveAlert (env : Env) (alert_id : string)
    (resolution_message : option string).

(** The manager after the call. *)
Definition serve (self : AlertManager) (q : Request) : AlertManager :=
  match q with
  | CreateAlert env ty src sev msg det envir rel =>
      final (create_alert env self ty src sev msg det envir rel)
  | ResolveAlert env alert_id resolution_message =>
      final (resolve_alert env self alert_id resolution_message)
  end.

(** The manager after the calls [qs], first to last. *)
Definition run (qs : list Request) (self : AlertManager) : AlertManager :=
  fold_left serve qs self.

(** The keys that never change once the dict is built. *)
Definition same_identity (a b : Alert) : Prop :=
  a_id a = a_id b
  /\ a_type a = a_type b
  /\ a_source a = a_source b
  /\ a_severity a = a_severity b
  /\ a_message a = a_message b
  /\ a_details a = a_details b
  /\ a_environment a = a_environment b
  /\ a_related_entities a = a_related_entities b
  /\ a_created_at a = a_created_at b.

(** The keys of a resolution are there exactly on a resolved alert. *)
Definition consistent (a : Alert) : Prop :=
  (a_status a = "active"
   /\ a_resolved_at a = None /\ a_resolution_message a = None)
  \/ (a_status a = "resolved"
      /\ a_resolved_at a <> None /\ a_resolution_message a <> None).

(** The requests that the notifiers sent. *)
Fixpoint posts_of (fx : list Effect) : list (string * Payload) :=
  match fx with
  | [] => []
  | HttpPost url p :: rest => (url, p) :: posts_of rest
  | Stdout _ _ _ :: rest => posts_of rest
  end.

Fixpoint posts (t : list Event) : list (string * Payload) :=
  match t with
  | [] => []
  | Call _ _ _ fx _ :: rest => (posts_of fx ++ posts rest)%list
  | Print _ :: rest => posts rest
  end.

(** The flag [notification.<name>.enabled] of the configuration. *)
Definition channel_enabled (config : Config) (name : string) : bool :=
  if (name =? "email")%string then email_enabled (notification_email config)
  else if (name =? "slack")%string
  then slack_enabled (notification_slack config)
  else if (name =? "pagerduty")%string
  then pagerduty_enabled (notification_pagerduty config)
  else false.

(** Two calls on [manager4], whose alert is resolved: the same event once
    more, and a second resolution. *)
Definition requests4 : list Request :=
  [CreateAlert (utc_host "id-4" (270 * second) None)
     "error_rate" "payment-api" "critical" "5xx above 10%" None "prod" None;
   ResolveAlert (utc_host "" (280 * second) None) "id-3" None].

(** Three more events for the warning of [manager1], all within the
    window. *)
Definition requests1 : list Request :=
  [CreateAlert (utc_host "id-5" (110 * second) None)
     "latency_spike" "checkout-api" "warning" "p99 above threshold"
     None "prod" None;
   CreateAlert (utc_host "id-6" (120 * second) None)
     "latency_spike" "checkout-api" "warning" "p99 above threshold"
     None "prod" None;
   ResolveAlert (utc_host "" (130 * second) None) "id-1" (Some "scaled up")].

(** A clock that steps back: the warning of [manager1] (created at 100 s)
    is followed by the same event at 500 s, which opens a second alert, and
    the next event is stamped 350 s. *)
Definition manager5 : AlertManager :=
  final (create_alert (utc_host "id-2" (500 * second) None) manager1
           "latency_spike" "checkout-api" "warning" "p99 above threshold"
           None "prod" None).

(** A critical alert in the manager with all three channels. *)
Definition manager_all3 : AlertManager :=
  final (create_alert (utc_host "id-3" (200 * second) None) manager_all
           "error_rate" "payment-api" "critical" "5xx above 10%"
           None "prod" None).

(** * [src/Anomaly_detection_engine.py]: class CrossEnvironmentCorrelator *)

(** An anomaly event is a dict of which the correlator reads two keys.
    The model covers the events in which ["timestamp"], where present, is
    an integer (whole seconds) and ["journey_id"], where present, is a
    string or [None], and windows that are integers.  A timestamp of
    another type (a string, [None], a float) is outside the model: on a
    string or [None] the code raises at [timestamp % time_window]. *)
Record AnomalyEvent : Type := {
  (* event["timestamp"]; [None] when the key is missing *)
  e_timestamp : option Z;
  (* event.get("journey_id"); [None] when the key is missing or holds
     None *)
  e_journey_id : option string;
  (* the other keys *)
  e_fields : Dict
}.

(** One element of the list that [correlate_anomalies] returns. *)
Record Correlation : Type := {
  correlation_id : string;
  events : list AnomalyEvent;
  correlation_type : string;
  journey_id : string
}.

(** What [correlate_anomalies] can raise. *)
Inductive CorrelatorError : Type :=
| KeyError_timestamp          (* event["timestamp"] on a dict without it *)
| ZeroDivisionError.          (* timestamp % 0 *)

Section Grouping.
Variables (K V : Type) (eqb : K -> K -> bool).

(** [if k not in d: d\[k\] = \[\]] and then [d\[k\].append(v)], on a dict
    in insertion order. *)
Fixpoint append_at (k : K) (v : V) (d : list (K * list V))
  : list (K * list V) :=
  match d with
  | [] => [(k, [v])]
  | (k', vs) :: rest =>
      if eqb k' k then (k', (vs ++ [v])%list) :: rest
      else (k', vs) :: append_at k v rest
  end.

(** The list filed under [k], empty when [k] is not a key. *)
Fixpoint filed_under (k : K) (d : list (K * list V)) : list V :=
  match d with
  | [] => []
  | (k', vs) :: rest => if eqb k' k then vs else filed_under k rest
  end.

(** Filing each value under its key, if it has one. *)
Fixpoint group_by (key : V -> option K) (vs : list V)
    (d : list (K * list V)) : list (K * list V) :=
  match vs with
  | [] => d
  | v :: rest =>
      match key v with
      | Some k => group_by key rest (append_at k v d)
      | None => group_by key rest d
      end
  end.

Definition has_key (key : V -> option K) (k : K) (v : V) : bool :=
  match key v with
  | Some k' => eqb k' k
  | None => false
  end.
End Grouping.

Module CrossEnvironmentCorrelator.

Record t : Type := {
  request_journeys : list (string * list string)
}.

(** [__init__] *)
Definition new : t := {| request_journeys := [] |}.

Definition register_request_journey (self : t) (journey_id : string)
    (api_sequence : list string) : t :=
  {| request_journeys :=
       dict_set journey_id api_sequence (request_journeys self) |}.

(** [timestamp - (timestamp % time_window)]; Python's [%] on integers
    takes the sign of the divisor, as [Z.modulo] does. *)
Definition bucket_key (timestamp time_window : Z) : Z :=
  timestamp - (timestamp mod time_window).

(** The first loop: group the events by time window. *)
Fixpoint fill_buckets (time_window : Z) (anomaly_events : list AnomalyEvent)
    (time_buckets : list (Z * list AnomalyEvent))
  : CorrelatorError + list (Z * list AnomalyEvent) :=
  match anomaly_events with
  | [] => inr time_buckets
  | event :: rest =>
      match e_timestamp event with
      | None => inl KeyError_timestamp
      | Some timestamp =>
          if time_window =? 0 then inl ZeroDivisionError
          else
            let bucket_key := bucket_key timestamp time_window in
            fill_buckets time_window rest
              (append_at Z.eqb bucket_key event time_buckets)
      end
  end.

(** The loop that groups the events of a bucket by request journey. *)
Fixpoint fill_journeys (events : list AnomalyEvent)
    (journey_events : list (string * list AnomalyEvent))
  : list (string * list AnomalyEvent) :=
  match events with
  | [] => journey_events
  | event :: rest =>
      match e_journey_id event with
      | Some journey_id =>
          if (journey_id =? "")%string then fill_journeys rest journey_events
          else fill_journeys rest
                 (append_at String.eqb journey_id event journey_events)
      | None => fill_journeys rest journey_events
      end
  end.

(** [str(n)] of an integer. *)
Definition str_int (n : Z) : string := NilZero.string_of_int (Z.to_int n).

(** The loop that creates the correlation groups of a bucket. *)
Fixpoint correlation_groups (bucket_key : Z)
    (journey_events : list (string * list AnomalyEvent))
  : list Correlation :=
  match journey_events with
  | [] => []
  | (journey_id, j_events) :: rest =>
      if (1 <? length j_events)%nat
      then {| correlation_id :=
                "corr-" ++ str_int bucket_key ++ "-" ++ journey_id;
              events := j_events;
              correlation_type := "request_journey";
              journey_id := journey_id |}
           :: correlation_groups bucket_key rest
      else correlation_groups bucket_key rest
  end.

(** The body of the second loop, for one bucket. *)
Definition correlate_bucket (bucket_key : Z) (events : list AnomalyEvent)
  : list Correlation :=
  if (length events <=? 1)%nat then []
  else
    let journey_events := fill_journeys events [] in
    correlation_groups bucket_key journey_events.

Fixpoint correlate_buckets (time_buckets : list (Z * list AnomalyEvent))
  : list Correlation :=
  match time_buckets with
  | [] => []
  | (bucket_key, events) :: rest =>
      (correlate_bucket bucket_key events ++ correlate_buckets rest)%list
  end.

Definition correlate_anomalies (self : t) (anomaly_events : list AnomalyEvent)
    (time_window : Z) : CorrelatorError + list Correlation :=
  match fill_buckets time_window anomaly_events [] with
  | inl e => inl e
  | inr time_buckets => inr (correlate_buckets time_buckets)
  end.

(** The default of [time_window]. *)
Definition default_time_window : Z := 300.

End CrossEnvironmentCorrelator.

(** ** Vocabulary for the correlator *)

(** The event falls into the bucket and belongs to the journey. *)
Definition in_group (time_window bucket : Z) (journey : string)
    (e : AnomalyEvent) : bool :=
  match e_timestamp e, e_journey_id e with
  | Some t, Some j =>
      (CrossEnvironmentCorrelator.bucket_key t time_window =? bucket)
      && (j =? journey)%string
  | _, _ => false
  end.

(** The group that the correlator builds for a bucket and a journey. *)
Definition group_of (time_window bucket : Z) (journey : string)
    (anomaly_events : list AnomalyEvent) : Correlation :=
  {| correlation_id :=
       "corr-" ++ CrossEnvironmentCorrelator.str_int bucket ++ "-" ++ journey;
     events := filter (in_group time_window bucket journey) anomaly_events;
     correlation_type := "request_journey";
     journey_id := journey |}.

(** An event of journey [j] stamped [t]. *)
Definition event_at (t : Z) (j : string) : AnomalyEvent :=
  {| e_timestamp := Some t; e_journey_id := Some j; e_fields := [] |}.

(** A dict as the loops build it: no key twice, no empty list. *)
Definition tidy (K V : Type) (d : list (K * list V)) : Prop :=
  NoDup (map fst d) /\ forall k l, In (k, l) d -> l <> [].

(** The key under which the first loop files an event. *)
Definition bucket_of (time_window : Z) (e : AnomalyEvent) : option Z :=
  match e_timestamp e with
  | Some t => Some (CrossEnvironmentCorrelator.bucket_key t time_window)
  | None => None
  end.

(** The key under which the journey loop files an event: its journey id,
    if it has one that is truthy. *)
Definition journey_of (e : AnomalyEvent) : option string :=
  match e_journey_id e with
  | Some j => if (j =? "")%string then None else Some j
  | None => None
  end.

(** Four events of one journey around the bucket boundary at 300 s, and
    one event without a journey. *)
Definition anomalies_demo : list AnomalyEvent :=
  [event_at 10 "checkout"; event_at 299 "checkout";
   {| e_timestamp := Some 120; e_journey_id := None; e_fields := [] |};
   event_at 300 "checkout"; event_at 599 "checkout"].

(** A configuration file with the channels of the default configuration
    and no ["deduplication_window"], and the same file with the key. *)
Definition file_without_window : Dict :=
  [("notification",
    JDict
      [("email",
        JDict [("enabled", JBool true);
               ("recipients", JList [JStr "ops@example.com"])]);
       ("slack",
        JDict [("enabled", JBool true);
               ("webhook_url",
                JStr "https://hooks.slack.com/services/XXX/YYY/ZZZ")]);
       ("pagerduty",
        JDict [("enabled", JBool false);
               ("service_key", JStr "your_pagerduty_service_key")])])].

Definition file_with_window : Dict :=
  (file_without_window ++ [("deduplication_window", JInt 300)])%list.

(** * Properties *)

Unset Implicit Arguments.

(** ** Dicts *)

Section DictFacts.
Variable V : Type.
Implicit Types (d : list (string * V)) (k : string) (v : V).

Lemma dict_get_In d k v : dict_get k d = Some v -> In (k, v) d.
Proof.
  induction d as [|[k' v'] d IH]; simpl; [discriminate|].
  destruct (String.eqb_spec k' k) as [->|Hne].
  - intros [= ->]. now left.
  - intros H. right. now apply IH.
Qed.

Lemma dict_get_None d k : dict_get k d = None <-> ~ In k (keys d).
Proof.
  induction d as [|[k' v'] d IH]; simpl.
  - split; [intros _ []|reflexivity].
  - destruct (String.eqb_spec k' k) as [->|Hne].
    + split; [discriminate|]. intros H. exfalso. apply H. now left.
    + rewrite IH. split.
      * intros H [E|HI]; [now apply Hne|now apply H].
      * intros H HI. apply H. now right.
Qed.

Lemma In_keys d k v : In (k, v) d -> In k (keys d).
Proof. intros H. apply (in_map fst) in H. exact H. Qed.

Lemma In_values d k v : In (k, v) d -> In v (values d).
Proof. intros H. apply (in_map snd) in H. exact H. Qed.

Lemma In_dict_get d k v :
  NoDup (keys d) -> In (k, v) d -> dict_get k d = Some v.
Proof.
  induction d as [|[k' v'] d IH]; simpl; [intros _ []|].
  intros Hnd [E|HI].
  - injection E as -> ->. now rewrite String.eqb_refl.
  - inversion Hnd as [|? ? Hk' Hnd']; subst.
    destruct (String.eqb_spec k' k) as [->|Hne].
    + exfalso. apply Hk'. now apply In_keys with v.
    + now apply IH.
Qed.

Lemma dict_set_fresh d k v :
  ~ In k (keys d) -> dict_set k v d = (d ++ [(k, v)])%list.
Proof.
  induction d as [|[k' v'] d IH]; simpl; [reflexivity|].
  intros H. destruct (String.eqb_spec k' k) as [->|Hne].
  - exfalso. apply H. now left.
  - rewrite IH; [reflexivity|]. intros HI. apply H. now right.
Qed.

Lemma keys_dict_set_present d k v :
  In k (keys d) -> keys (dict_set k v d) = keys d.
Proof.
  induction d as [|[k' v'] d IH]; simpl; [intros []|].
  intros H. destruct (String.eqb_spec k' k) as [->|Hne]; [reflexivity|].
  simpl. f_equal. apply IH. destruct H as [E|H]; [contradiction|exact H].
Qed.

Lemma dict_get_set_eq d k v : dict_get k (dict_set k v d) = Some v.
Proof.
  induction d as [|[k' v'] d IH]; simpl.
  - now rewrite String.eqb_refl.
  - destruct (String.eqb_spec k' k) as [->|Hne]; simpl.
    + now rewrite String.eqb_refl.
    + destruct (String.eqb_spec k' k); [contradiction|exact IH].
Qed.

Lemma In_dict_set d k v k0 v0 :
  In (k0, v0) (dict_set k v d) -> (k0, v0) = (k, v) \/ In (k0, v0) d.
Proof.
  induction d as [|[k' v'] d IH]; simpl.
  - intros [E|[]]. now left.
  - destruct (String.eqb_spec k' k) as [->|Hne]; simpl.
    + intros [E|H]; [now left|right; now right].
    + intros [E|H]; [right; now left|].
      destruct (IH H) as [E|HI]; [now left|right; now right].
Qed.

Lemma keys_dict_set d k v :
  keys (dict_set k v d) = keys d
  \/ (~ In k (keys d) /\ keys (dict_set k v d) = (keys d ++ [k])%list).
Proof.
  destruct (in_dec string_dec k (keys d)) as [HI|HI].
  - left. now apply keys_dict_set_present.
  - right. split; [exact HI|]. rewrite dict_set_fresh by exact HI.
    unfold keys. now rewrite map_app.
Qed.

Lemma NoDup_snoc (A : Type) (l : list A) (x : A) :
  NoDup l -> ~ In x l -> NoDup (l ++ [x]).
Proof.
  intros Hnd Hx. induction Hnd as [|y l Hy Hnd IH]; simpl.
  - constructor; [intros []|constructor].
  - constructor.
    + rewrite in_app_iff. intros [H|[H|[]]]; [now apply Hy|].
      apply Hx. now left.
    + apply IH. intros H. apply Hx. now right.
Qed.

Lemma NoDup_keys_dict_set d k v :
  NoDup (keys d) -> NoDup (keys (dict_set k v d)).
Proof.
  intros Hnd. destruct (keys_dict_set d k v) as [->|[HI ->]];
    [exact Hnd|now apply NoDup_snoc].
Qed.

Lemma In_values_dict_set d k v v0 :
  In v0 (values (dict_set k v d)) -> v0 = v \/ In v0 (values d).
Proof.
  unfold values. rewrite in_map_iff. intros [[k1 v1] [E H]].
  simpl in E. subst v1. apply In_dict_set in H as [[= _ ->]|H];
    [now left|right]. now apply In_values with k1.
Qed.

Lemma NoDup_values_dict_set d k v :
  NoDup (values d) -> ~ In v (values d) ->
  NoDup (values (dict_set k v d)).
Proof.
  induction d as [|[k' v'] d IH]; simpl; intros Hnd Hv.
  - constructor; [intros []|constructor].
  - inversion Hnd as [|? ? Hv' Hnd']; subst.
    destruct (String.eqb_spec k' k) as [->|Hne]; simpl.
    + constructor; [|exact Hnd']. intros H. apply Hv. now right.
    + constructor.
      * intros H. apply In_values_dict_set in H as [->|H];
          [apply Hv; now left|now apply Hv'].
      * apply IH; [exact Hnd'|]. intros H. apply Hv. now right.
Qed.
End DictFacts.

(** ** Looking for a duplicate *)

Lemma similar_true (existing alert : Alert) :
  similar existing alert = true <->
  a_type existing = a_type alert /\ a_source existing = a_source alert
  /\ a_severity existing = a_severity alert
  /\ a_environment existing = a_environment alert.
Proof.
  unfold similar. rewrite !andb_true_iff, !String.eqb_eq. tauto.
Qed.

Lemma skipped_false (env : Env) (w : Z) (existing : Alert) :
  skipped env w existing = false <->
  a_status existing = "active"
  /\ time_time env - timestamp env (a_created_at existing) <= w * 1000000.
Proof.
  unfold skipped.
  destruct (String.eqb_spec (a_status existing) "active") as [E|N]; simpl.
  - rewrite Z.gtb_ltb, Z.ltb_ge. tauto.
  - split; [discriminate|]. intros [E _]. contradiction.
Qed.

Lemma fresh_duplicate_iff env self ty src sev msg det envir rel l :
  fresh_duplicate env self ty src sev envir l <->
  skipped env (deduplication_window (config self)) (heap self l) = false
  /\ similar (heap self l)
       (new_alert env ty src sev msg det envir rel) = true.
Proof.
  unfold fresh_duplicate. rewrite skipped_false, similar_true. simpl. tauto.
Qed.

(** On a host whose zone is UTC the age that the loop compares with the
    window is the time elapsed since [created_at]. *)
Lemma fresh_duplicate_utc env self ty src sev envir l :
  (forall d, timestamp env d = d) ->
  fresh_duplicate env self ty src sev envir l <->
  a_status (heap self l) = "active"
  /\ time_time env - a_created_at (heap self l)
     <= deduplication_window (config self) * 1000000
  /\ a_type (heap self l) = ty
  /\ a_source (heap self l) = src
  /\ a_severity (heap self l) = sev
  /\ a_environment (heap self l) = envir.
Proof.
  intros Hutc. unfold fresh_duplicate. cbv zeta. now rewrite Hutc.
Qed.

Section FirstDuplicate.
Variables (env : Env) (w : Z) (h : loc -> Alert) (alert : Alert).

Local Abbreviation hit := (hit env w h alert).

Lemma first_duplicate_cons k l items :
  first_duplicate env w h alert ((k, l) :: items) =
  if hit l then Some l else first_duplicate env w h alert items.
Proof.
  unfold hit. simpl.
  destruct (skipped env w (h l)); simpl; [reflexivity|].
  destruct (similar (h l) alert); reflexivity.
Qed.

Lemma first_duplicate_Some items l :
  first_duplicate env w h alert items = Some l ->
  In l (values items) /\ hit l = true.
Proof.
  induction items as [|[k l'] items IH]; [discriminate|].
  rewrite first_duplicate_cons. destruct (hit l') eqn:E.
  - intros [= ->]. split; [now left|exact E].
  - intros H. destruct (IH H) as [HI Hh]. split; [now right|exact Hh].
Qed.

Lemma first_duplicate_None items :
  first_duplicate env w h alert items = None <->
  forall l, In l (values items) -> hit l = false.
Proof.
  induction items as [|[k l'] items IH].
  - split; [intros _ l []|reflexivity].
  - rewrite first_duplicate_cons. destruct (hit l') eqn:E.
    + split; [discriminate|]. intros H.
      rewrite (H l') in E; [discriminate|now left].
    + rewrite IH. split.
      * intros H l [<-|HI]; [exact E|now apply H].
      * intros H l HI. apply H. now right.
Qed.

Lemma first_duplicate_app items items' :
  (forall l, In l (values items) -> hit l = false) ->
  first_duplicate env w h alert (items ++ items') =
  first_duplicate env w h alert items'.
Proof.
  induction items as [|[k l'] items IH]; intros H; [reflexivity|].
  rewrite <- app_comm_cons, first_duplicate_cons.
  rewrite (H l') by now left. apply IH. intros l HI. apply H. now right.
Qed.
End FirstDuplicate.

Lemma first_duplicate_ext env w (h h' : loc -> Alert) alert items :
  (forall l, In l (values items) -> h l = h' l) ->
  first_duplicate env w h alert items = first_duplicate env w h' alert items.
Proof.
  induction items as [|[k l'] items IH]; intros H; [reflexivity|].
  rewrite !first_duplicate_cons. unfold hit. rewrite (H l') by now left.
  rewrite IH; [reflexivity|]. intros l HI. apply H. now right.
Qed.

Lemma hit_fresh_duplicate env self ty src sev msg det envir rel l :
  hit env (deduplication_window (config self)) (heap self)
    (new_alert env ty src sev msg det envir rel) l = true
  <-> fresh_duplicate env self ty src sev envir l.
Proof.
  rewrite (fresh_duplicate_iff env self ty src sev msg det envir rel l).
  unfold hit. rewrite andb_true_iff, negb_true_iff. tauto.
Qed.

(** ** The two paths of [create_alert] *)

Lemma In_values_inv (V : Type) (d : list (string * V)) (v : V) :
  In v (values d) -> exists k, In (k, v) d.
Proof.
  unfold values. rewrite in_map_iff. intros [[k v'] [E H]].
  simpl in E. subst. now exists k.
Qed.

Lemma create_alert_duplicate env self ty src sev msg det envir rel l :
  wf self ->
  _check_for_duplicate env self (new_alert env ty src sev msg det envir rel)
    = Some l ->
  create_alert env self ty src sev msg det envir rel =
  {| final := store self l (merged env (heap self l));
     trace := [];
     value := inr l |}.
Proof.
  intros Hwf Hdup. unfold create_alert. rewrite Hdup.
  apply first_duplicate_Some in Hdup as [HI _].
  apply In_values_inv in HI as [k HI].
  unfold _update_alert.
  rewrite (wf_id Hwf _ _ HI), (In_dict_get _ _ _ _ (wf_keys Hwf) HI).
  reflexivity.
Qed.

Lemma create_alert_fresh env self ty src sev msg det envir rel :
  _check_for_duplicate env self (new_alert env ty src sev msg det envir rel)
    = None ->
  let alert :=
    setitem (new_alert env ty src sev msg det envir rel) (I_count 1) in
  create_alert env self ty src sev msg det envir rel =
  {| final := stored env self alert;
     trace := _send_notifications env (stored env self alert) alert;
     value := inr (next_loc self) |}.
Proof.
  intros Hdup. unfold create_alert. rewrite Hdup. reflexivity.
Qed.

(** ** The invariant holds of every reachable manager *)

Lemma wf_init file : wf (init file).
Proof.
  split; simpl; try (intros; contradiction); constructor.
Qed.

Lemma wf_store self l a :
  wf self ->
  a_id a = a_id (heap self l) ->
  (exists c, a_count a = Some c /\ 1 <= c) ->
  wf (store self l a).
Proof.
  intros Hwf Hid Hc. split; simpl.
  - apply (wf_keys Hwf).
  - apply (wf_locs Hwf).
  - intros k l' HI. destruct (Nat.eqb_spec l' l) as [->|Hne].
    + rewrite Hid. now apply (wf_id Hwf).
    + now apply (wf_id Hwf).
  - intros l' HI. destruct (Nat.eqb_spec l' l) as [->|Hne];
      [exact Hc|now apply (wf_count Hwf)].
  - apply (wf_alloc Hwf).
  - apply (wf_hist Hwf).
Qed.

Lemma wf_stored env self alert :
  wf self ->
  a_id alert = uuid4 env ->
  a_count alert = Some 1 ->
  wf (stored env self alert).
Proof.
  intros Hwf Hid Hc.
  assert (Hnew : ~ In (next_loc self) (values (active_alerts self))).
  { intros HI. apply (wf_alloc Hwf) in HI. lia. }
  split; simpl.
  - apply NoDup_keys_dict_set, (wf_keys Hwf).
  - apply NoDup_values_dict_set; [apply (wf_locs Hwf)|exact Hnew].
  - intros k l HI. apply In_dict_set in HI as [[= -> ->]|HI].
    + now rewrite Nat.eqb_refl.
    + destruct (Nat.eqb_spec l (next_loc self)) as [->|Hne].
      * exfalso. apply Hnew. now apply In_values with k.
      * now apply (wf_id Hwf).
  - intros l HI. apply In_values_dict_set in HI as [->|HI].
    + rewrite Nat.eqb_refl. exists 1. split; [exact Hc|lia].
    + destruct (Nat.eqb_spec l (next_loc self)) as [->|Hne];
        [contradiction|now apply (wf_count Hwf)].
  - intros l HI. apply In_values_dict_set in HI as [->|HI]; [lia|].
    apply (wf_alloc Hwf) in HI. lia.
  - intros l HI. apply in_app_iff in HI as [HI|[<-|[]]]; [|lia].
    apply (wf_hist Hwf) in HI. lia.
Qed.

Lemma wf_create_alert env self ty src sev msg det envir rel :
  wf self -> wf (final (create_alert env self ty src sev msg det envir rel)).
Proof.
  intros Hwf.
  destruct (_check_for_duplicate env self
              (new_alert env ty src sev msg det envir rel)) as [l|] eqn:E.
  - rewrite (create_alert_duplicate _ _ _ _ _ _ _ _ _ _ Hwf E). simpl.
    apply wf_store; [exact Hwf|reflexivity|].
    apply first_duplicate_Some in E as [HI _].
    destruct (wf_count Hwf _ HI) as [c [Hc Hle]].
    exists (c + 1). unfold merged, get_count. simpl. rewrite Hc.
    split; [reflexivity|lia].
  - rewrite (create_alert_fresh _ _ _ _ _ _ _ _ _ E). simpl.
    now apply wf_stored.
Qed.

Lemma wf_resolve_alert env self alert_id resolution_message :
  wf self -> wf (final (resolve_alert env self alert_id resolution_message)).
Proof.
  intros Hwf. unfold resolve_alert.
  destruct (dict_get alert_id (active_alerts self)) as [l|] eqn:E;
    [|exact Hwf].
  simpl. apply wf_store; [exact Hwf|reflexivity|]. simpl.
  apply dict_get_In in E. apply (wf_count Hwf). now apply In_values with alert_id.
Qed.

Lemma reachable_wf self : reachable self -> wf self.
Proof.
  induction 1 as [file|? ? ? ? ? ? ? ? ? _ IH|? ? ? ? _ IH].
  - apply wf_init.
  - now apply wf_create_alert.
  - now apply wf_resolve_alert.
Qed.

(** ** Deduplication *)

Lemma check_for_duplicate_Some env self ty src sev msg det envir rel l :
  _check_for_duplicate env self (new_alert env ty src sev msg det envir rel)
    = Some l ->
  In l (values (active_alerts self))
  /\ fresh_duplicate env self ty src sev envir l.
Proof.
  intros H. apply first_duplicate_Some in H as [HI Hh]. split; [exact HI|].
  now apply (hit_fresh_duplicate env self ty src sev msg det envir rel l).
Qed.

Lemma check_for_duplicate_None env self ty src sev msg det envir rel :
  _check_for_duplicate env self (new_alert env ty src sev msg det envir rel)
    = None
  <-> ~ has_fresh_duplicate env self ty src sev envir.
Proof.
  unfold _check_for_duplicate. rewrite first_duplicate_None. split.
  - intros H [l [HI Hf]].
    apply (hit_fresh_duplicate env self ty src sev msg det envir rel l) in Hf.
    rewrite (H l HI) in Hf. discriminate.
  - intros H l HI.
    destruct (hit env (deduplication_window (config self)) (heap self)
                (new_alert env ty src sev msg det envir rel) l) eqn:E;
      [|reflexivity].
    exfalso. apply H. exists l. split; [exact HI|].
    now apply (hit_fresh_duplicate env self ty src sev msg det envir rel l).
Qed.

(** A matching event is merged into the stored alert it matches. *)
Lemma create_alert_merges env self ty src sev msg det envir rel :
  wf self ->
  has_fresh_duplicate env self ty src sev envir ->
  let o := create_alert env self ty src sev msg det envir rel in
  exists l,
    In l (values (active_alerts self))
    /\ fresh_duplicate env self ty src sev envir l
    /\ o = {| final := store self l (merged env (heap self l));
              trace := []; value := inr l |}.
Proof.
  intros Hwf Hdup o.
  destruct (_check_for_duplicate env self
              (new_alert env ty src sev msg det envir rel)) as [l|] eqn:E.
  - exists l. destruct (check_for_duplicate_Some _ _ _ _ _ _ _ _ _ _ E).
    split; [assumption|split; [assumption|]].
    now apply create_alert_duplicate.
  - apply check_for_duplicate_None in E. contradiction.
Qed.

(** Without a match a new object is stored. *)
Lemma create_alert_creates env self ty src sev msg det envir rel :
  ~ has_fresh_duplicate env self ty src sev envir ->
  let alert :=
    setitem (new_alert env ty src sev msg det envir rel) (I_count 1) in
  create_alert env self ty src sev msg det envir rel =
  {| final := stored env self alert;
     trace := _send_notifications env (stored env self alert) alert;
     value := inr (next_loc self) |}.
Proof.
  intros H. apply create_alert_fresh. now apply check_for_duplicate_None.
Qed.

(** Two events with one signature, the second within the window of the
    first and nothing else matching either: one record, counted twice. *)
Lemma create_alert_twice env env2 self ty src sev msg msg2 det det2 envir
    rel rel2 :
  wf self ->
  ~ has_fresh_duplicate env self ty src sev envir ->
  ~ has_fresh_duplicate env2 self ty src sev envir ->
  ~ In (uuid4 env) (keys (active_alerts self)) ->
  time_time env2 - timestamp env2 (utcnow env 0)
    <= deduplication_window (config self) * 1000000 ->
  let o1 := create_alert env self ty src sev msg det envir rel in
  let o2 := create_alert env2 (final o1) ty src sev msg2 det2 envir rel2 in
  let l := next_loc self in
  value o1 = inr l /\ value o2 = inr l
  /\ active_alerts (final o2)
     = (active_alerts self ++ [(uuid4 env, l)])%list
  /\ alert_history (final o2) = (alert_history self ++ [l])%list
  /\ a_id (heap (final o2) l) = uuid4 env
  /\ a_status (heap (final o2) l) = "active"
  /\ a_count (heap (final o2) l) = Some 2.
Proof.
  intros Hwf H1 H2 Hid Hage o1 o2 l.
  pose proof (create_alert_creates env self ty src sev msg det envir rel H1)
    as E1. cbv zeta in E1. fold o1 in E1.
  set (alert := setitem (new_alert env ty src sev msg det envir rel)
                  (I_count 1)) in E1.
  assert (Hwf1 : wf (final o1)) by now apply wf_create_alert.
  assert (Hact : active_alerts (final o1)
                 = (active_alerts self ++ [(uuid4 env, l)])%list).
  { rewrite E1. simpl. now apply dict_set_fresh. }
  assert (Hdup : _check_for_duplicate env2 (final o1)
                   (new_alert env2 ty src sev msg2 det2 envir rel2) = Some l).
  { unfold _check_for_duplicate. rewrite Hact, first_duplicate_app.
    - rewrite first_duplicate_cons.
      replace (hit env2 _ _ _ l) with true; [reflexivity|].
      symmetry. unfold hit. rewrite andb_true_iff, negb_true_iff.
      rewrite skipped_false, similar_true, E1. simpl.
      unfold l. rewrite Nat.eqb_refl. simpl. repeat split; try reflexivity.
      exact Hage.
    - intros l' HI.
      assert (Hl' : heap (final o1) l' = heap self l').
      { rewrite E1. simpl. apply (wf_alloc Hwf) in HI.
        destruct (Nat.eqb_spec l' (next_loc self)); [lia|reflexivity]. }
      destruct (hit env2 (deduplication_window (config (final o1)))
                  (heap (final o1))
                  (new_alert env2 ty src sev msg2 det2 envir rel2) l')
        eqn:E; [|reflexivity].
      exfalso. apply H2. exists l'. split; [exact HI|].
      apply (hit_fresh_duplicate env2 self ty src sev msg2 det2 envir rel2).
      unfold hit in *. rewrite Hl' in E. rewrite E1 in E. exact E. }
  pose proof (create_alert_duplicate env2 (final o1) ty src sev msg2 det2
                envir rel2 l Hwf1 Hdup) as E2. fold o2 in E2.
  rewrite E2. simpl. rewrite Hact, Nat.eqb_refl.
  rewrite E1. simpl. unfold l. rewrite Nat.eqb_refl. simpl.
  repeat split; reflexivity.
Qed.

(** The two paths of [create_alert], on the test of age that the code
    makes ([fresh_duplicate]): a call whose signature equals that of a
    stored active alert that passes the test creates nothing, it returns
    that alert, same id, count one more; a call without such a match
    stores a new, separate active alert with count 1; two matching calls,
    the second passing the test on the alert of the first, leave one
    record with count 2. *)
Lemma create_alert_deduplicates env env2 self ty src sev msg msg2 det det2
    envir rel rel2 :
  wf self ->
  let o := create_alert env self ty src sev msg det envir rel in
  (has_fresh_duplicate env self ty src sev envir ->
   exists l,
     In l (values (active_alerts self))
     /\ fresh_duplicate env self ty src sev envir l
     /\ value o = inr l
     /\ active_alerts (final o) = active_alerts self
     /\ alert_history (final o) = alert_history self
     /\ next_loc (final o) = next_loc self
     /\ a_id (heap (final o) l) = a_id (heap self l)
     /\ a_status (heap (final o) l) = "active"
     /\ exists c, a_count (heap self l) = Some c
                  /\ a_count (heap (final o) l) = Some (c + 1))
  /\ (~ has_fresh_duplicate env self ty src sev envir ->
      let l := next_loc self in
      value o = inr l
      /\ ~ In l (values (active_alerts self))
      /\ get_alert_by_id (final o) (uuid4 env) = Some l
      /\ (~ In (uuid4 env) (keys (active_alerts self)) ->
          active_alerts (final o)
          = (active_alerts self ++ [(uuid4 env, l)])%list)
      /\ alert_history (final o) = (alert_history self ++ [l])%list
      /\ heap (final o) l
         = setitem (new_alert env ty src sev msg det envir rel) (I_count 1)
      /\ a_status (heap (final o) l) = "active"
      /\ a_count (heap (final o) l) = Some 1
      /\ forall l', l' <> l -> heap (final o) l' = heap self l')
  /\ (~ has_fresh_duplicate env self ty src sev envir ->
      ~ has_fresh_duplicate env2 self ty src sev envir ->
      ~ In (uuid4 env) (keys (active_alerts self)) ->
      time_time env2 - timestamp env2 (utcnow env 0)
        <= deduplication_window (config self) * 1000000 ->
      let o2 := create_alert env2 (final o) ty src sev msg2 det2 envir rel2 in
      let l := next_loc self in
      value o = inr l /\ value o2 = inr l
      /\ active_alerts (final o2)
         = (active_alerts self ++ [(uuid4 env, l)])%list
      /\ alert_history (final o2) = (alert_history self ++ [l])%list
      /\ a_id (heap (final o2) l) = uuid4 env
      /\ a_status (heap (final o2) l) = "active"
      /\ a_count (heap (final o2) l) = Some 2).
Proof.
  intros Hwf o. split; [|split].
  - intros Hdup.
    destruct (create_alert_merges env self ty src sev msg det envir rel
                Hwf Hdup) as [l [HI [Hf E]]].
    fold o in E. exists l. rewrite E. simpl. rewrite Nat.eqb_refl.
    destruct (wf_count Hwf _ HI) as [c [Hc _]].
    repeat (split; [first [assumption | reflexivity]|]).
    split; [apply Hf|].
    exists c. unfold merged, get_count. simpl. rewrite Hc. now split.
  - intros Hdup l.
    pose proof (create_alert_creates env self ty src sev msg det envir rel
                  Hdup) as E. cbv zeta in E. fold o in E.
    rewrite E. simpl. unfold get_alert_by_id. simpl.
    rewrite dict_get_set_eq. unfold l. rewrite Nat.eqb_refl.
    repeat (split; [try reflexivity|]).
    + intros HI. apply (wf_alloc Hwf) in HI. lia.
    + intros Hid. now apply dict_set_fresh.
    + intros l' Hne. destruct (Nat.eqb_spec l' (next_loc self));
        [contradiction|reflexivity].
  - intros H1 H2 Hid Hage.
    exact (create_alert_twice env env2 self ty src sev msg msg2 det det2
             envir rel rel2 Hwf H1 H2 Hid Hage).
Qed.

Lemma no_duplicate_in_empty env file ty src sev envir :
  ~ has_fresh_duplicate env (init file) ty src sev envir.
Proof. intros [l [[] _]]. Defined.

(** On a host whose zone is UTC: the same warning twice within one
    second.  Then, from the manager that holds this warning: an event that
    comes exactly at the end of the window is merged, an event one
    microsecond later is stored as a second alert. *)
Lemma create_alert_deduplicates_witness :
  wf manager0
  /\ (let o1 := create_alert (utc_host "id-1" (100 * second) None) manager0
                  "latency_spike" "checkout-api" "warning"
                  "p99 above threshold" None "prod" None in
      let o2 := create_alert (utc_host "id-2" (101 * second) None) (final o1)
                  "latency_spike" "checkout-api" "warning"
                  "p99 above threshold" None "prod" None in
      value o1 = inr 0%nat /\ value o2 = inr 0%nat
      /\ active_alerts (final o2) = [("id-1", 0%nat)]
      /\ alert_history (final o2) = [0%nat]
      /\ a_id (heap (final o2) 0%nat) = "id-1"
      /\ a_status (heap (final o2) 0%nat) = "active"
      /\ a_count (heap (final o2) 0%nat) = Some 2)
  /\ (let o := create_alert (utc_host "id-2" (400 * second) None) manager1
                 "latency_spike" "checkout-api" "warning"
                 "p99 above threshold" None "prod" None in
      value o = inr 0%nat
      /\ active_alerts (final o) = [("id-1", 0%nat)])
  /\ (let o := create_alert (utc_host "id-2" (400 * second + 1) None)
                 manager1 "latency_spike" "checkout-api" "warning"
                 "p99 above threshold" None "prod" None in
      value o = inr 1%nat
      /\ active_alerts (final o) = [("id-1", 0%nat); ("id-2", 1%nat)]
      /\ a_count (heap (final o) 1%nat) = Some 1
      /\ a_count (heap (final o) 0%nat) = Some 1).
Proof.
  assert (Hwf1 : wf manager1) by (apply wf_create_alert, wf_init).
  split; [apply wf_init|]. split; [|split].
  - apply (create_alert_deduplicates
             (utc_host "id-1" (100 * second) None)
             (utc_host "id-2" (101 * second) None) manager0
             "latency_spike" "checkout-api" "warning" "p99 above threshold"
             "p99 above threshold" None None "prod" None None (wf_init None)).
    + apply no_duplicate_in_empty.
    + apply no_duplicate_in_empty.
    + simpl. tauto.
    + vm_compute. discriminate.
  - destruct (create_alert_deduplicates
                (utc_host "id-2" (400 * second) None)
                (utc_host "id-2" (400 * second) None) manager1
                "latency_spike" "checkout-api" "warning"
                "p99 above threshold" "" None None "prod" None None Hwf1)
      as [H _].
    destruct H as [l [HI [_ [Hv [Ha _]]]]].
    + exists 0%nat. split; [now left|].
      repeat split; try reflexivity.
    + destruct HI as [<-|[]]. cbv zeta. split; [exact Hv|exact Ha].
  - destruct (create_alert_deduplicates
                (utc_host "id-2" (400 * second + 1) None)
                (utc_host "id-2" (400 * second + 1) None) manager1
                "latency_spike" "checkout-api" "warning"
                "p99 above threshold" "" None None "prod" None None Hwf1)
      as [_ [H _]].
    destruct H as [Hv [_ [_ [Ha [_ [_ [_ [Hc Hold]]]]]]]].
    + intros [l [[<-|[]] [_ [Hage _]]]]. vm_compute in Hage.
      apply Hage. reflexivity.
    + cbv zeta. split; [exact Hv|]. split.
      * apply Ha. simpl. intros [E|[]]. discriminate.
      * split; [exact Hc|]. rewrite (Hold 0%nat) by discriminate. reflexivity.
Defined.

(** On a host whose zone is UTC the test of the code is the test of the
    specification. *)
Lemma recent_duplicate_utc env self ty src sev envir l :
  (forall d, timestamp env d = d) ->
  fresh_duplicate env self ty src sev envir l
  <-> recent_duplicate env self ty src sev envir l.
Proof.
  intros Hutc. unfold fresh_duplicate, recent_duplicate. cbv zeta.
  now rewrite Hutc.
Qed.

(** C1, at the failing input.  [created_at] is written from
    [datetime.utcnow()] and read back with [timestamp()], which takes it
    for local time, so off UTC the age is wrong by the offset of the zone.
    On a host at UTC+05:30 the store holds an active warning created one
    second ago, with the signature of the event, and [create_alert] stores
    a second record with count 1 instead of returning the first with
    count 2.  On a host at UTC-05:00 a warning created 9900 s ago, 33
    windows of 300 s, takes the event. *)
Theorem deduplication_misjudges_age_off_utc :
  (let env := zoned_host east "id-2" (101 * second) None in
   let o := create_alert env manager_east "latency_spike" "checkout-api"
              "warning" "p99 above threshold" None "prod" None in
   recent_duplicate env manager_east "latency_spike" "checkout-api"
     "warning" "prod" 0%nat
   /\ time_time env - a_created_at (heap manager_east 0%nat) = 1 * second
   /\ ~ has_fresh_duplicate env manager_east "latency_spike" "checkout-api"
         "warning" "prod"
   /\ value o = inr 1%nat
   /\ active_alerts (final o) = [("id-1", 0%nat); ("id-2", 1%nat)]
   /\ a_status (heap (final o) 0%nat) = "active"
   /\ a_count (heap (final o) 0%nat) = Some 1
   /\ a_status (heap (final o) 1%nat) = "active"
   /\ a_count (heap (final o) 1%nat) = Some 1)
  /\ (let env := zoned_host west "id-2" (10000 * second) None in
      let o := create_alert env manager_west "latency_spike" "checkout-api"
                 "warning" "p99 above threshold" None "prod" None in
      ~ recent_duplicate env manager_west "latency_spike" "checkout-api"
          "warning" "prod" 0%nat
      /\ time_time env - a_created_at (heap manager_west 0%nat)
         = 9900 * second
      /\ value o = inr 0%nat
      /\ active_alerts (final o) = [("id-1", 0%nat)]
      /\ a_count (heap (final o) 0%nat) = Some 2).
Proof.
  split; cbv zeta.
  - split.
    { repeat split; try reflexivity. vm_compute. discriminate. }
    split; [reflexivity|]. split.
    { intros [l [[<-|[]] [_ [Hage _]]]]. vm_compute in Hage.
      apply Hage. reflexivity. }
    repeat split; reflexivity.
  - split.
    { intros [_ [Hage _]]. vm_compute in Hage. apply Hage. reflexivity. }
    repeat split; reflexivity.
Qed.

(** ** What a merge changes *)

(** C9. A merge changes two keys of the existing dict: ["count"], which
    becomes one more than it was, and ["updated_at"], which becomes the
    time of the merge.  Every other key keeps its value, the message and
    the details of the new event are dropped, nothing is stored and no
    notifier is called. *)
Theorem merge_changes_count_and_updated_at env self ty src sev msg det envir
    rel :
  wf self ->
  has_fresh_duplicate env self ty src sev envir ->
  let o := create_alert env self ty src sev msg det envir rel in
  exists l,
    In l (values (active_alerts self))
    /\ value o = inr l
    /\ (let old := heap self l in
        let new := heap (final o) l in
        a_id new = a_id old
        /\ a_type new = a_type old
        /\ a_source new = a_source old
        /\ a_severity new = a_severity old
        /\ a_environment new = a_environment old
        /\ a_message new = a_message old
        /\ a_details new = a_details old
        /\ a_related_entities new = a_related_entities old
        /\ a_created_at new = a_created_at old
        /\ a_status new = a_status old
        /\ a_resolved_at new = a_resolved_at old
        /\ a_resolution_message new = a_resolution_message old
        /\ (exists c, a_count old = Some c /\ a_count new = Some (c + 1))
        /\ a_updated_at new = utcnow env 2)
    /\ (forall l', l' <> l -> heap (final o) l' = heap self l')
    /\ active_alerts (final o) = active_alerts self
    /\ alert_history (final o) = alert_history self
    /\ next_loc (final o) = next_loc self
    /\ trace o = []
    /\ calls OpSendAlert (trace o) = [].
Proof.
  intros Hwf Hdup o.
  destruct (create_alert_merges env self ty src sev msg det envir rel
              Hwf Hdup) as [l [HI [Hf E]]].
  destruct (wf_count Hwf _ HI) as [c [Hc _]].
  fold o in E. exists l. rewrite E. simpl. rewrite Nat.eqb_refl.
  split; [exact HI|]. split; [reflexivity|].
  split.
  { repeat (split; [reflexivity|]). split; [|reflexivity].
    exists c. split; [exact Hc|]. unfold merged, get_count. simpl.
    now rewrite Hc. }
  split; [|repeat split; reflexivity].
  intros l' Hne. destruct (Nat.eqb_spec l' l); [contradiction|reflexivity].
Qed.

(** The warning of [manager2], which has absorbed one event and counts 2,
    absorbs another that carries another message and other details: the
    count is 3, the message and the details are those of the first
    event. *)
Lemma merge_changes_count_and_updated_at_witness :
  wf manager2
  /\ has_fresh_duplicate (utc_host "id-3" (102 * second) None) manager2
       "latency_spike" "checkout-api" "warning" "prod"
  /\ (let o := create_alert (utc_host "id-3" (102 * second) None) manager2
                 "latency_spike" "checkout-api" "warning" "p99 at 2 s"
                 (Some [("p99", JInt 2000)]) "prod" None in
      a_count (heap manager2 0%nat) = Some 2
      /\ a_count (heap (final o) 0%nat) = Some 3
      /\ a_message (heap (final o) 0%nat) = "p99 above threshold"
      /\ a_details (heap (final o) 0%nat) = []
      /\ a_updated_at (heap (final o) 0%nat) = 102 * second).
Proof.
  assert (Hwf : wf manager2) by (apply wf_create_alert, wf_create_alert, wf_init).
  assert (Hdup : has_fresh_duplicate (utc_host "id-3" (102 * second) None)
                   manager2 "latency_spike" "checkout-api" "warning" "prod").
  { exists 0%nat. split; [now left|].
    repeat split; try reflexivity. vm_compute. discriminate. }
  split; [exact Hwf|split; [exact Hdup|]].
  destruct (merge_changes_count_and_updated_at
              (utc_host "id-3" (102 * second) None) manager2
              "latency_spike" "checkout-api" "warning" "p99 at 2 s"
              (Some [("p99", JInt 2000)]) "prod" None Hwf Hdup)
    as [l [_ [Hl [Hfields _]]]].
  injection Hl as <-. cbv zeta in Hfields |- *.
  destruct Hfields as
    [_ [_ [_ [_ [_ [Hm [Hd [_ [_ [_ [_ [_ [[c [Hc Hc']] Hu]]]]]]]]]]]]].
  assert (Hc2 : a_count (heap manager2 0%nat) = Some 2) by reflexivity.
  rewrite Hc2 in Hc. injection Hc as <-.
  split; [exact Hc2|]. split; [exact Hc'|].
  split; [rewrite Hm; reflexivity|].
  split; [rewrite Hd; reflexivity|exact Hu].
Defined.

(** ** The history *)

Lemma resolve_alert_found env self alert_id resolution_message l :
  get_alert_by_id self alert_id = Some l ->
  let alert := resolved env resolution_message (heap self l) in
  resolve_alert env self alert_id resolution_message =
  {| final := store self l alert;
     trace := _send_resolution_notification env (store self l alert) alert;
     value := inr l |}.
Proof.
  unfold get_alert_by_id, resolve_alert. intros ->. reflexivity.
Qed.

Lemma resolve_alert_missing env self alert_id resolution_message :
  get_alert_by_id self alert_id = None ->
  resolve_alert env self alert_id resolution_message =
  {| final := self; trace := [];
     value :=
       inl (ValueError ("Alert with ID " ++ alert_id ++ " not found")) |}.
Proof.
  unfold get_alert_by_id, resolve_alert. intros ->. reflexivity.
Qed.

Lemma history_view_store self l a :
  history_view (store self l a) =
  map (fun l' => if Nat.eqb l' l then a else heap self l')
    (alert_history self).
Proof. reflexivity. Qed.

(** Against C2: a merge appends nothing to the history, and the entry
    logged when the alert was created now shows the merged state. *)
Lemma history_entry_changes_counterexample :
  let o := create_alert (utc_host "id-2" (101 * second) None) manager1
             "latency_spike" "checkout-api" "warning" "p99 still high"
             (Some [("p99", JInt 950)]) "prod" None in
  value o = inr 0%nat
  /\ ~ logs_a_snapshot manager1 o
  /\ alert_history manager1 = [0%nat]
  /\ alert_history (final o) = [0%nat]
  /\ map a_count (history_view manager1) = [Some 1]
  /\ map a_count (history_view (final o)) = [Some 2].
Proof.
  cbv zeta. split; [reflexivity|]. split; [|repeat split; reflexivity].
  intros H. specialize (H 0%nat eq_refl).
  apply (f_equal (@length Alert)) in H. vm_compute in H. discriminate.
Qed.

(** C2, amended. Only the creation of a new alert appends to the history,
    and what it appends is the stored dict itself, not a copy: a merge and
    a resolution append nothing, no entry is removed or moved, and the
    entries of the alert they change show it as changed. *)
Theorem history_holds_the_live_alerts env self ty src sev msg det envir rel
    alert_id resolution_message :
  wf self ->
  let o := create_alert env self ty src sev msg det envir rel in
  let r := resolve_alert env self alert_id resolution_message in
  (~ has_fresh_duplicate env self ty src sev envir ->
   let l := next_loc self in
   value o = inr l
   /\ get_alert_by_id (final o) (uuid4 env) = Some l
   /\ alert_history (final o) = (alert_history self ++ [l])%list
   /\ history_view (final o)
      = (history_view self ++ [heap (final o) l])%list)
  /\ (has_fresh_duplicate env self ty src sev envir ->
      exists l,
        value o = inr l
        /\ alert_history (final o) = alert_history self
        /\ history_view (final o)
           = map (fun l' => if Nat.eqb l' l then merged env (heap self l)
                            else heap self l') (alert_history self))
  /\ alert_history (final r) = alert_history self
  /\ (forall l, value r = inr l ->
        history_view (final r)
        = map (fun l' => if Nat.eqb l' l
                         then resolved env resolution_message (heap self l)
                         else heap self l') (alert_history self)).
Proof.
  intros Hwf o r. split; [|split; [|split]].
  - intros Hdup l.
    pose proof (create_alert_creates env self ty src sev msg det envir rel
                  Hdup) as E. cbv zeta in E. fold o in E.
    rewrite E. unfold get_alert_by_id, history_view. simpl.
    rewrite dict_get_set_eq, map_app. simpl. fold l. rewrite Nat.eqb_refl.
    repeat (split; [reflexivity|]). f_equal.
    apply map_ext_in. intros l' HI. apply (wf_hist Hwf) in HI.
    destruct (Nat.eqb_spec l' l); [unfold l in *; lia|reflexivity].
  - intros Hdup.
    destruct (create_alert_merges env self ty src sev msg det envir rel
                Hwf Hdup) as [l [HI [Hf E]]].
    fold o in E. exists l. rewrite E. simpl.
    repeat split; reflexivity.
  - unfold r, resolve_alert.
    destruct (dict_get alert_id (active_alerts self)); reflexivity.
  - intros l Hl.
    destruct (get_alert_by_id self alert_id) as [l'|] eqn:E.
    + pose proof (resolve_alert_found env self alert_id resolution_message
                    l' E) as Er. cbv zeta in Er. fold r in Er.
      rewrite Er in Hl |- *. simpl in Hl. injection Hl as ->.
      apply history_view_store.
    + pose proof (resolve_alert_missing env self alert_id resolution_message
                    E) as Er. fold r in Er. rewrite Er in Hl. discriminate.
Qed.

Lemma history_holds_the_live_alerts_witness :
  wf manager1
  /\ history_view manager2 = [merged (utc_host "id-2" (101 * second) None)
                                (heap manager1 0%nat)].
Proof.
  assert (Hwf : wf manager1) by (apply wf_create_alert, wf_init).
  split; [exact Hwf|].
  destruct (history_holds_the_live_alerts
              (utc_host "id-2" (101 * second) None) manager1
              "latency_spike" "checkout-api" "warning" "p99 still high"
              (Some [("p99", JInt 950)]) "prod" None "id-1" None Hwf)
    as [_ [H _]].
  destruct H as [l [Hl [_ Hv]]].
  - exists 0%nat. split; [now left|].
    repeat split; try reflexivity. vm_compute. discriminate.
  - injection Hl as <-. exact Hv.
Defined.

(** ** The dispatcher *)

Lemma calls_app op t t' : calls op (t ++ t') = (calls op t ++ calls op t')%list.
Proof.
  induction t as [|[name op' a fx r|line] t IH]; simpl; [reflexivity| |exact IH].
  destruct op, op'; simpl; now rewrite IH.
Qed.

Lemma calls_dispatch env op failed services alert :
  calls op (dispatch env op failed services alert) = keys services.
Proof.
  induction services as [|[name service] services IH]; [reflexivity|].
  simpl. destruct (invoke op service env alert) as [fx [e|[]]];
    destruct op; simpl; now rewrite IH.
Qed.

Lemma calls_dispatch_other env op op' failed services alert :
  op <> op' -> calls op' (dispatch env op failed services alert) = [].
Proof.
  intros Hne. induction services as [|[name service] services IH];
    [reflexivity|].
  simpl. destruct (invoke op service env alert) as [fx [e|[]]];
    destruct op, op'; simpl; try contradiction; exact IH.
Qed.

Lemma In_dispatch env op failed services alert name service :
  In (name, service) services ->
  In (Call name op alert (fst (invoke op service env alert))
        (snd (invoke op service env alert)))
     (dispatch env op failed services alert).
Proof.
  induction services as [|[name' service'] services IH]; [intros []|].
  intros [[= -> ->]|HI]; simpl.
  - destruct (invoke op service env alert) as [fx r]. now left.
  - destruct (invoke op service' env alert) as [fx r]. right.
    apply in_or_app. right. now apply IH.
Qed.

(** A notifier that raises is reported on standard output. *)
Lemma In_dispatch_failed env op failed services alert name service e :
  In (name, service) services ->
  snd (invoke op service env alert) = inl e ->
  In (Print (failed name (str e))) (dispatch env op failed services alert).
Proof.
  induction services as [|[name' service'] services IH]; [intros []|].
  intros [[= -> ->]|HI] He; simpl.
  - destruct (invoke op service env alert) as [fx r]. simpl in He. subst r.
    right. now left.
  - destruct (invoke op service' env alert) as [fx r]. right.
    apply in_or_app. right. now apply IH.
Qed.

(** ** Resolution *)

(** C3. [resolve_alert] raises the not-found error exactly when the store
    has no alert under the id; on an active alert it succeeds and returns
    the alert, resolved, with the time of resolution and the message
    given. *)
Theorem resolve_alert_fails_iff_unknown env self alert_id resolution_message :
  let o := resolve_alert env self alert_id resolution_message in
  ((exists e, value o = inl e) <-> ~ In alert_id (keys (active_alerts self)))
  /\ (~ In alert_id (keys (active_alerts self)) ->
      value o
      = inl (ValueError ("Alert with ID " ++ alert_id ++ " not found"))
      /\ final o = self /\ trace o = [])
  /\ (forall l,
        get_alert_by_id self alert_id = Some l ->
        a_status (heap self l) = "active" ->
        value o = inr l
        /\ a_status (heap (final o) l) = "resolved"
        /\ a_resolved_at (heap (final o) l) = Some (utcnow env 0)
        /\ a_resolution_message (heap (final o) l)
           = Some resolution_message).
Proof.
  intros o. split; [|split].
  - rewrite <- dict_get_None. fold (get_alert_by_id self alert_id).
    destruct (get_alert_by_id self alert_id) as [l|] eqn:E.
    + pose proof (resolve_alert_found env self alert_id resolution_message
                    l E) as Eo. cbv zeta in Eo. fold o in Eo. rewrite Eo.
      simpl. split; [intros [e He]|]; discriminate.
    + pose proof (resolve_alert_missing env self alert_id resolution_message
                    E) as Eo. fold o in Eo. rewrite Eo. simpl.
      split; [reflexivity|]. intros _. eexists. reflexivity.
  - intros H. apply dict_get_None in H.
    pose proof (resolve_alert_missing env self alert_id resolution_message
                  H) as Eo. fold o in Eo. rewrite Eo. now repeat split.
  - intros l E _.
    pose proof (resolve_alert_found env self alert_id resolution_message
                  l E) as Eo. cbv zeta in Eo. fold o in Eo. rewrite Eo.
    simpl. rewrite Nat.eqb_refl. now repeat split.
Qed.

(** The scenario of the specification: a critical alert, then
    [resolve_alert(id, "rolled back deploy")]; and an unknown id. *)
Lemma resolve_alert_fails_iff_unknown_witness :
  get_alert_by_id manager3 "id-3" = Some 0%nat
  /\ a_status (heap manager3 0%nat) = "active"
  /\ a_status (heap manager4 0%nat) = "resolved"
  /\ a_resolved_at (heap manager4 0%nat) = Some (260 * second)
  /\ a_resolution_message (heap manager4 0%nat)
     = Some (Some "rolled back deploy")
  /\ value (resolve_alert (utc_host "" (260 * second) None) manager3
              "nonexistent-id" None)
     = inl (ValueError "Alert with ID nonexistent-id not found").
Proof.
  split; [reflexivity|]. split; [reflexivity|].
  destruct (resolve_alert_fails_iff_unknown
              (utc_host "" (260 * second) None) manager3 "id-3"
              (Some "rolled back deploy")) as [_ [_ H]].
  destruct (H 0%nat eq_refl eq_refl) as [_ [H1 [H2 H3]]].
  fold manager4 in H1, H2, H3.
  split; [exact H1|]. split; [exact H2|]. split; [exact H3|].
  destruct (resolve_alert_fails_iff_unknown
              (utc_host "" (260 * second) None) manager3 "nonexistent-id"
              None) as [_ [H' _]].
  apply H'. simpl. intros [E|[]]. discriminate.
Defined.

Lemma setitem_same_status a : setitem a (I_status (a_status a)) = a.
Proof. now destruct a. Qed.

(** Against C4: resolving the resolved alert of [manager4] once more
    succeeds, replaces the time and the message of the resolution and
    calls the notifiers again. *)
Lemma resolve_alert_again_counterexample :
  let o := resolve_alert (utc_host "" (300 * second) None) manager4
             "id-3" (Some "second") in
  a_status (heap manager4 0%nat) = "resolved"
  /\ value o = inr 0%nat
  /\ a_resolved_at (heap manager4 0%nat) = Some (260 * second)
  /\ a_resolved_at (heap (final o) 0%nat) = Some (300 * second)
  /\ a_resolution_message (heap manager4 0%nat)
     = Some (Some "rolled back deploy")
  /\ a_resolution_message (heap (final o) 0%nat) = Some (Some "second")
  /\ calls OpSendResolution (trace o) = ["email"; "slack"].
Proof. cbv zeta. repeat split; reflexivity. Qed.

(** C4, amended. [resolve_alert] on an alert that is already resolved
    succeeds as on an active one: the status stays ["resolved"], the time
    and the message of the resolution are replaced by the new ones, no
    other key and no other alert changes, and the notifiers are called
    again when the severity is error or critical. *)
Theorem resolve_alert_again_overwrites env self alert_id resolution_message
    l :
  get_alert_by_id self alert_id = Some l ->
  a_status (heap self l) = "resolved" ->
  let o := resolve_alert env self alert_id resolution_message in
  let old := heap self l in
  let new := heap (final o) l in
  value o = inr l
  /\ new = setitem (setitem old (I_resolved_at (utcnow env 0)))
             (I_resolution_message resolution_message)
  /\ a_status new = "resolved"
  /\ a_resolved_at new = Some (utcnow env 0)
  /\ a_resolution_message new = Some resolution_message
  /\ (forall l', l' <> l -> heap (final o) l' = heap self l')
  /\ active_alerts (final o) = active_alerts self
  /\ alert_history (final o) = alert_history self
  /\ (a_severity old = AlertSeverity.ERROR
      \/ a_severity old = AlertSeverity.CRITICAL ->
      calls OpSendResolution (trace o) = keys (notification_services self))
  /\ (a_severity old <> AlertSeverity.ERROR ->
      a_severity old <> AlertSeverity.CRITICAL ->
      trace o = []).
Proof.
  intros E Hst o old new.
  pose proof (resolve_alert_found env self alert_id resolution_message l E)
    as Eo. cbv zeta in Eo. fold o in Eo.
  assert (Hres : resolved env resolution_message old
                 = setitem (setitem old (I_resolved_at (utcnow env 0)))
                     (I_resolution_message resolution_message)).
  { unfold resolved, old. rewrite <- Hst. now rewrite setitem_same_status. }
  unfold new. rewrite Eo. simpl. rewrite Nat.eqb_refl. fold old.
  rewrite Hres.
  split; [reflexivity|]. split; [reflexivity|].
  split; [simpl; exact Hst|]. split; [reflexivity|]. split; [reflexivity|].
  split.
  { intros l' Hne. destruct (Nat.eqb_spec l' l); [contradiction|reflexivity]. }
  split; [reflexivity|]. split; [reflexivity|].
  unfold _send_resolution_notification. simpl.
  split.
  - intros [Hs|Hs]; rewrite Hs; simpl; apply calls_dispatch.
  - intros H1 H2.
    destruct (String.eqb_spec (a_severity old) AlertSeverity.ERROR);
      [contradiction|].
    destruct (String.eqb_spec (a_severity old) AlertSeverity.CRITICAL);
      [contradiction|]. reflexivity.
Qed.

Lemma resolve_alert_again_overwrites_witness :
  get_alert_by_id manager4 "id-3" = Some 0%nat
  /\ a_status (heap manager4 0%nat) = "resolved"
  /\ value (resolve_alert (utc_host "" (300 * second) None) manager4 "id-3"
              (Some "second")) = inr 0%nat.
Proof.
  split; [reflexivity|]. split; [reflexivity|].
  apply (resolve_alert_again_overwrites (utc_host "" (300 * second) None)
           manager4 "id-3" (Some "second") 0%nat eq_refl eq_refl).
Defined.

(** ** Failure modes of [create_alert] *)

(** Against C5: a severity outside the four values is accepted, and the
    alert is stored. *)
Lemma create_alert_unknown_severity_counterexample :
  let o := create_alert (utc_host "id-1" (100 * second) None) manager0
             "latency_spike" "checkout-api" "bogus" "p99 above threshold"
             None "prod" None in
  value o = inr 0%nat
  /\ active_alerts manager0 = []
  /\ active_alerts (final o) = [("id-1", 0%nat)]
  /\ a_severity (heap (final o) 0%nat) = "bogus"
  /\ a_status (heap (final o) 0%nat) = "active".
Proof. cbv zeta. repeat split; reflexivity. Qed.

Lemma create_alert_returns env self ty src sev msg det envir rel :
  wf self ->
  exists l,
    value (create_alert env self ty src sev msg det envir rel) = inr l
    /\ In l (values (active_alerts
                      (final (create_alert env self ty src sev msg det envir
                                rel))))
    /\ a_severity (heap (final (create_alert env self ty src sev msg det
                                  envir rel)) l) = sev.
Proof.
  intros Hwf.
  destruct (_check_for_duplicate env self
              (new_alert env ty src sev msg det envir rel)) as [l|] eqn:E.
  - rewrite (create_alert_duplicate env self ty src sev msg det envir rel
               l Hwf E).
    apply check_for_duplicate_Some in E as [HI Hf].
    exists l. simpl. rewrite Nat.eqb_refl.
    split; [reflexivity|]. split; [exact HI|]. apply Hf.
  - rewrite (create_alert_fresh env self ty src sev msg det envir rel E).
    exists (next_loc self). simpl. rewrite Nat.eqb_refl.
    split; [reflexivity|]. split; [|reflexivity].
    apply In_values with (uuid4 env). apply dict_get_In, dict_get_set_eq.
Qed.

(** *** On an unchecked configuration file *)

Lemma unchecked_first_duplicate_int env n h alert items :
  Unchecked.first_duplicate env (JInt n) h alert items
  = inr (first_duplicate env n h alert items).
Proof.
  induction items as [|[k l] items IH]; [reflexivity|].
  simpl. unfold skipped.
  destruct (negb (a_status (h l) =? "active")%string); [exact IH|].
  destruct (time_time env - timestamp env (a_created_at (h l))
            >? n * 1000000); [exact IH|].
  destruct (similar (h l) alert); [reflexivity|exact IH].
Qed.

(** On a file whose window is the one of the checked configuration, the
    unchecked method is the method modelled above. *)
Lemma unchecked_create_alert_checked env config_file self ty src sev msg det
    envir rel :
  dict_get "deduplication_window" config_file
    = Some (JInt (deduplication_window (config self))) ->
  Unchecked.create_alert env config_file self ty src sev msg det envir rel
  = create_alert env self ty src sev msg det envir rel.
Proof.
  intros Hw. unfold Unchecked.create_alert, Unchecked._check_for_duplicate,
    create_alert, _check_for_duplicate.
  rewrite Hw, unchecked_first_duplicate_int.
  destruct (first_duplicate env _ _ _ _); reflexivity.
Qed.

Lemma unchecked_first_duplicate_numeric env w h alert items :
  numeric w = true ->
  exists r,
    Unchecked.first_duplicate env w h alert items = inr r
    /\ forall l, r = Some l ->
                 In l (values items) /\ similar (h l) alert = true.
Proof.
  intros Hw. induction items as [|[k l] items IH]; simpl.
  - exists None. split; [reflexivity|discriminate].
  - assert (Hrest : exists r,
               Unchecked.first_duplicate env w h alert items = inr r
               /\ forall l', r = Some l' ->
                     (l = l' \/ In l' (values items))
                     /\ similar (h l') alert = true).
    { destruct IH as [r [E H]]. exists r. split; [exact E|].
      intros l' Hl'. destruct (H l' Hl'). split; [now right|assumption]. }
    destruct (negb (a_status (h l) =? "active")%string); [exact Hrest|].
    destruct w; try discriminate; simpl.
    + destruct (_ >? _); [exact Hrest|].
      destruct (similar (h l) alert) eqn:Es; [|exact Hrest].
      exists (Some l). split; [reflexivity|]. intros l' [= <-].
      split; [now left|exact Es].
    + destruct (_ >? _); [exact Hrest|].
      destruct (similar (h l) alert) eqn:Es; [|exact Hrest].
      exists (Some l). split; [reflexivity|]. intros l' [= <-].
      split; [now left|exact Es].
Qed.

Lemma unchecked_first_duplicate_not_numeric env w h alert items :
  numeric w = false ->
  ((exists l, In l (values items) /\ a_status (h l) = "active") ->
   exists m, Unchecked.first_duplicate env w h alert items
             = inl (TypeError m))
  /\ (~ (exists l, In l (values items) /\ a_status (h l) = "active") ->
      Unchecked.first_duplicate env w h alert items = inr None).
Proof.
  intros Hw. induction items as [|[k l] items [IH1 IH2]]; simpl.
  - split; [intros [l [[] _]]|reflexivity].
  - destruct (String.eqb_spec (a_status (h l)) "active") as [E|N]; simpl.
    + split.
      * intros _. destruct w; try discriminate; eexists; reflexivity.
      * intros H. exfalso. apply H. exists l. split; [now left|exact E].
    + split.
      * intros [l' [[<-|HI] Hl']]; [contradiction|].
        apply IH1. now exists l'.
      * intros H. apply IH2. intros [l' [HI Hl']]. apply H.
        exists l'. split; [now right|exact Hl'].
Qed.

Lemma has_active_dec self : has_active self \/ ~ has_active self.
Proof.
  unfold has_active. induction (values (active_alerts self)) as [|l ls IH].
  - right. intros [l [[] _]].
  - destruct (string_dec (a_status (heap self l)) "active") as [E|N].
    + left. exists l. split; [now left|exact E].
    + destruct IH as [[l' [HI Hl']]|IH].
      * left. exists l'. split; [now right|exact Hl'].
      * right. intros [l' [[<-|HI] Hl']]; [contradiction|].
        apply IH. now exists l'.
Qed.

(** Whether the unchecked [create_alert] raises depends on the file and
    on the store alone. *)
Lemma unchecked_create_alert_fails_iff env config_file self ty src sev msg det
    envir rel :
  wf self ->
  (exists e, value (Unchecked.create_alert env config_file self ty src sev
                      msg det envir rel) = inl e)
  <-> dict_get "deduplication_window" config_file = None
      \/ (exists w, dict_get "deduplication_window" config_file = Some w
                    /\ numeric w = false /\ has_active self).
Proof.
  intros Hwf. unfold Unchecked.create_alert, Unchecked._check_for_duplicate.
  destruct (dict_get "deduplication_window" config_file) as [w|].
  - destruct (numeric w) eqn:Hw.
    + destruct (unchecked_first_duplicate_numeric env w (heap self)
                  (new_alert env ty src sev msg det envir rel)
                  (active_alerts self) Hw) as [r [-> Hr]].
      split.
      * intros [e He]. exfalso. destruct r as [l|]; [|discriminate].
        destruct (Hr l eq_refl) as [HI _].
        apply In_values_inv in HI as [k HI]. unfold _update_alert in He.
        rewrite (wf_id Hwf _ _ HI), (In_dict_get _ _ _ _ (wf_keys Hwf) HI)
          in He.
        discriminate.
      * intros [H|[w' [E [H _]]]]; [discriminate|].
        injection E as <-. congruence.
    + destruct (unchecked_first_duplicate_not_numeric env w (heap self)
                  (new_alert env ty src sev msg det envir rel)
                  (active_alerts self) Hw) as [H1 H2].
      destruct (has_active_dec self) as [Ha|Hna].
      * destruct (H1 Ha) as [m ->]. split.
        -- intros _. right. exists w. now repeat split.
        -- intros _. eexists. reflexivity.
      * rewrite (H2 Hna). split.
        -- intros [e He]. discriminate.
        -- intros [H|[w' [_ [_ Ha]]]]; [discriminate|contradiction].
  - split; [intros _; now left|]. intros _. eexists. reflexivity.
Qed.

(** C5, amended.  [create_alert] never inspects the severity and has no
    failure of its own for it: on a configuration that holds an integer
    (or a boolean, which Python compares as 1 or 0) under
    ["deduplication_window"] the call returns a stored alert that carries
    the severity given, one of the four values or any other string.  What
    can fail is the read of the configuration file, alike for every
    severity: [KeyError] when the key is missing, [TypeError] when its
    value is null, a string, a list or an object and the store holds an
    active alert; the manager is then left as it was and no notifier is
    called. *)
Theorem create_alert_never_checks_severity env config_file self ty src sev
    msg det envir rel :
  wf self ->
  let o := Unchecked.create_alert env config_file self ty src sev msg det
             envir rel in
  (forall w,
     dict_get "deduplication_window" config_file = Some w ->
     numeric w = true ->
     exists l,
       value o = inr l
       /\ In l (values (active_alerts (final o)))
       /\ a_severity (heap (final o) l) = sev)
  /\ (dict_get "deduplication_window" config_file
        = Some (JInt (deduplication_window (config self))) ->
      o = create_alert env self ty src sev msg det envir rel)
  /\ (dict_get "deduplication_window" config_file = None ->
      value o = inl (KeyError "deduplication_window"))
  /\ (forall w,
        dict_get "deduplication_window" config_file = Some w ->
        numeric w = false -> has_active self ->
        exists m, value o = inl (TypeError m))
  /\ (forall e, value o = inl e -> final o = self /\ trace o = [])
  /\ (forall sev',
        (exists e, value o = inl e)
        <-> exists e,
              value (Unchecked.create_alert env config_file self ty src sev'
                       msg det envir rel) = inl e).
Proof.
  intros Hwf o.
  split; [|split; [|split; [|split; [|split]]]].
  - intros w Hget Hw. unfold o, Unchecked.create_alert,
      Unchecked._check_for_duplicate. rewrite Hget.
    destruct (unchecked_first_duplicate_numeric env w (heap self)
                (new_alert env ty src sev msg det envir rel)
                (active_alerts self) Hw) as [[l|] [-> Hr]].
    + destruct (Hr l eq_refl) as [HI Hs].
      apply similar_true in Hs as [_ [_ [Hs _]]].
      destruct (In_values_inv _ _ _ HI) as [k Hk]. unfold _update_alert.
      rewrite (wf_id Hwf _ _ Hk), (In_dict_get _ _ _ _ (wf_keys Hwf) Hk).
      exists l. simpl. rewrite Nat.eqb_refl.
      split; [reflexivity|]. split; [exact HI|exact Hs].
    + exists (next_loc self). simpl. rewrite Nat.eqb_refl.
      split; [reflexivity|]. split; [|reflexivity].
      apply In_values with (uuid4 env). apply dict_get_In, dict_get_set_eq.
  - intros Hget. now apply unchecked_create_alert_checked.
  - intros Hget. unfold o, Unchecked.create_alert,
      Unchecked._check_for_duplicate. now rewrite Hget.
  - intros w Hget Hw Ha.
    destruct (unchecked_first_duplicate_not_numeric env w (heap self)
                (new_alert env ty src sev msg det envir rel)
                (active_alerts self) Hw) as [H1 _].
    destruct (H1 Ha) as [m Hm]. exists m.
    unfold o, Unchecked.create_alert, Unchecked._check_for_duplicate.
    now rewrite Hget, Hm.
  - intros e. unfold o, Unchecked.create_alert.
    destruct (Unchecked._check_for_duplicate env config_file self _)
      as [e'|[l|]]; simpl.
    + now split.
    + unfold _update_alert.
      destruct (dict_get _ (active_alerts self)); simpl;
        [discriminate|now split].
    + discriminate.
  - intros sev'. unfold o.
    rewrite (unchecked_create_alert_fails_iff env config_file self ty src sev
               msg det envir rel Hwf),
      (unchecked_create_alert_fails_iff env config_file self ty src sev'
         msg det envir rel Hwf).
    reflexivity.
Qed.

(** The severity ["bogus"] on the default file: stored; on the file that
    lacks the window: [KeyError], as for every severity. *)
Lemma create_alert_never_checks_severity_witness :
  wf manager0
  /\ (exists l,
        value (Unchecked.create_alert (utc_host "id-1" (100 * second) None)
                 file_with_window manager0 "latency_spike" "checkout-api"
                 "bogus" "p99 above threshold" None "prod" None) = inr l)
  /\ value (Unchecked.create_alert (utc_host "id-1" (100 * second) None)
              file_without_window manager0 "latency_spike" "checkout-api"
              "bogus" "p99 above threshold" None "prod" None)
     = inl (KeyError "deduplication_window").
Proof.
  split; [apply wf_init|]. split.
  - destruct (create_alert_never_checks_severity
                (utc_host "id-1" (100 * second) None) file_with_window
                manager0 "latency_spike" "checkout-api" "bogus"
                "p99 above threshold" None "prod" None (wf_init None))
      as [H _].
    destruct (H (JInt 300) eq_refl eq_refl) as [l [Hl _]].
    exists l. exact Hl.
  - apply (create_alert_never_checks_severity
             (utc_host "id-1" (100 * second) None) file_without_window
             manager0 "latency_spike" "checkout-api" "bogus"
             "p99 above threshold" None "prod" None (wf_init None)).
    reflexivity.
Defined.

(** ** Notifications *)

(** C6. [create_alert] with severity info calls no notifier's
    [send_alert]; [resolve_alert] calls [send_resolution] only on an alert
    whose severity is error or critical. *)
Theorem notifications_are_gated_by_severity env self ty src msg det envir rel
    alert_id resolution_message :
  let o := create_alert env self ty src AlertSeverity.INFO msg det envir rel in
  let r := resolve_alert env self alert_id resolution_message in
  trace o = []
  /\ calls OpSendAlert (trace o) = []
  /\ (forall l,
        get_alert_by_id self alert_id = Some l ->
        a_severity (heap self l) <> AlertSeverity.ERROR ->
        a_severity (heap self l) <> AlertSeverity.CRITICAL ->
        trace r = [] /\ calls OpSendResolution (trace r) = [])
  /\ (calls OpSendResolution (trace r) <> [] ->
      exists l,
        get_alert_by_id self alert_id = Some l
        /\ (a_severity (heap self l) = AlertSeverity.ERROR
            \/ a_severity (heap self l) = AlertSeverity.CRITICAL)).
Proof.
  intros o r.
  assert (Ho : trace o = []).
  { unfold o, create_alert.
    destruct (_check_for_duplicate env self _) as [l|].
    - destruct (_update_alert _ _ _ _) as [self' [e|l']]; reflexivity.
    - reflexivity. }
  assert (Hr : forall l,
             get_alert_by_id self alert_id = Some l ->
             a_severity (heap self l) <> AlertSeverity.ERROR ->
             a_severity (heap self l) <> AlertSeverity.CRITICAL ->
             trace r = []).
  { intros l E H1 H2.
    pose proof (resolve_alert_found env self alert_id resolution_message l E)
      as Er. cbv zeta in Er. fold r in Er. rewrite Er.
    unfold _send_resolution_notification. simpl.
    destruct (String.eqb_spec (a_severity (heap self l)) AlertSeverity.ERROR);
      [contradiction|].
    destruct (String.eqb_spec (a_severity (heap self l))
                AlertSeverity.CRITICAL); [contradiction|]. reflexivity. }
  split; [exact Ho|]. split; [now rewrite Ho|]. split.
  - intros l E H1 H2. rewrite (Hr l E H1 H2). now split.
  - intros Hcalls.
    destruct (get_alert_by_id self alert_id) as [l|] eqn:E.
    + exists l. split; [reflexivity|].
      destruct (string_dec (a_severity (heap self l)) AlertSeverity.ERROR)
        as [H1|H1]; [now left|].
      destruct (string_dec (a_severity (heap self l)) AlertSeverity.CRITICAL)
        as [H2|H2]; [now right|].
      exfalso. apply Hcalls. now rewrite (Hr l eq_refl H1 H2).
    + exfalso. apply Hcalls.
      pose proof (resolve_alert_missing env self alert_id resolution_message
                    E) as Er. fold r in Er. now rewrite Er.
Qed.

(** The warning of [manager1] is resolved without a word to any channel. *)
Lemma notifications_are_gated_by_severity_witness :
  get_alert_by_id manager1 "id-1" = Some 0%nat
  /\ a_severity (heap manager1 0%nat) = "warning"
  /\ trace (resolve_alert (utc_host "" (160 * second) None) manager1 "id-1"
              None) = [].
Proof.
  split; [reflexivity|]. split; [reflexivity|].
  destruct (notifications_are_gated_by_severity
              (utc_host "" (160 * second) None) manager1 "" "" "" None ""
              None "id-1" None) as [_ [_ [H _]]].
  apply (H 0%nat eq_refl); vm_compute; discriminate.
Defined.

(** C7. Whatever the notifiers do, raise or return, every one of them is
    called, in order, and neither [create_alert] nor [resolve_alert]
    raises what a notifier raised: both return the alert. *)
Theorem channel_failures_are_isolated env self ty src sev msg det envir rel
    alert_id resolution_message :
  wf self ->
  let o := create_alert env self ty src sev msg det envir rel in
  let r := resolve_alert env self alert_id resolution_message in
  (exists l, value o = inr l)
  /\ (~ has_fresh_duplicate env self ty src sev envir ->
      sev <> AlertSeverity.INFO ->
      let a := heap (final o) (next_loc self) in
      calls OpSendAlert (trace o) = keys (notification_services self)
      /\ forall name service,
           In (name, service) (notification_services self) ->
           In (Call name OpSendAlert a (fst (send_alert service env a))
                 (snd (send_alert service env a))) (trace o)
           /\ forall e, snd (send_alert service env a) = inl e ->
                In (Print ("Failed to send " ++ name ++ " notification: "
                           ++ str e)) (trace o))
  /\ (forall l,
        get_alert_by_id self alert_id = Some l ->
        value r = inr l
        /\ (a_severity (heap self l) = AlertSeverity.ERROR
            \/ a_severity (heap self l) = AlertSeverity.CRITICAL ->
            let a := heap (final r) l in
            calls OpSendResolution (trace r)
            = keys (notification_services self)
            /\ forall name service,
                 In (name, service) (notification_services self) ->
                 In (Call name OpSendResolution a
                       (fst (send_resolution service env a))
                       (snd (send_resolution service env a))) (trace r)
                 /\ forall e, snd (send_resolution service env a) = inl e ->
                      In (Print ("Failed to send " ++ name
                                 ++ " resolution notification: " ++ str e))
                         (trace r))).
Proof.
  intros Hwf o r. split; [|split].
  - destruct (create_alert_returns env self ty src sev msg det
                envir rel Hwf) as [l Hl]. now exists l.
  - intros Hdup Hsev a.
    pose proof (create_alert_creates env self ty src sev msg det envir rel
                  Hdup) as Eo. cbv zeta in Eo. fold o in Eo.
    unfold a. rewrite Eo. unfold _send_notifications. simpl.
    rewrite Nat.eqb_refl.
    destruct (String.eqb_spec sev AlertSeverity.INFO); [contradiction|].
    split; [apply calls_dispatch|].
    intros name service HI. split.
    + apply (In_dispatch env OpSendAlert _ _ _ name service HI).
    + intros e He.
      exact (In_dispatch_failed env OpSendAlert
               (fun service_name e =>
                  "Failed to send " ++ service_name ++ " notification: " ++ e)
               _ _ name service e HI He).
  - intros l E.
    pose proof (resolve_alert_found env self alert_id resolution_message l E)
      as Er. cbv zeta in Er. fold r in Er. rewrite Er.
    split; [reflexivity|]. intros Hsev a. unfold a. simpl.
    rewrite Nat.eqb_refl. unfold _send_resolution_notification. simpl.
    replace ((a_severity (heap self l) =? AlertSeverity.ERROR)%string
             || (a_severity (heap self l) =? AlertSeverity.CRITICAL)%string)
      with true.
    + split; [apply calls_dispatch|].
      intros name service HI. split.
      * apply (In_dispatch env OpSendResolution _ _ _ name service HI).
      * intros e He.
        exact (In_dispatch_failed env OpSendResolution
                 (fun service_name e =>
                    "Failed to send " ++ service_name
                    ++ " resolution notification: " ++ e)
                 _ _ name service e HI He).
    + symmetry. apply orb_true_iff. rewrite !String.eqb_eq. exact Hsev.
Qed.

(** With the network down, Slack raises on a critical alert; PagerDuty,
    next in line, is called all the same and the caller gets the alert. *)
Lemma channel_failures_are_isolated_witness :
  wf manager_all
  /\ (let o := create_alert (utc_host "id-1" (100 * second) (Some "refused"))
                 manager_all "error_rate" "payment-api" "critical"
                 "5xx above 10%" None "prod" None in
      value o = inr 0%nat
      /\ calls OpSendAlert (trace o) = ["email"; "slack"; "pagerduty"]
      /\ In (Print ("Failed to send slack notification: "
                    ++ "Failed to send Slack notification: refused"))
            (trace o)).
Proof.
  split; [apply wf_init|].
  destruct (channel_failures_are_isolated
              (utc_host "id-1" (100 * second) (Some "refused")) manager_all
              "error_rate" "payment-api" "critical" "5xx above 10%" None
              "prod" None "" None (wf_init (Some config_all)))
    as [_ [H _]].
  split; [reflexivity|].
  destruct H as [Hcalls Hall].
  - apply no_duplicate_in_empty.
  - discriminate.
  - split; [exact Hcalls|].
    destruct (Hall "slack"
                (SlackNotifier.new (notification_slack config_all)))
      as [_ Hfail].
    + right. now left.
    + apply (Hfail (Exception "Failed to send Slack notification: refused")).
      reflexivity.
Defined.

(** ** The view of the active alerts *)

Lemma filter_passes value wanted :
  (truthy wanted && differs value wanted)%bool = false <->
  passes value wanted.
Proof.
  destruct wanted as [w|]; simpl; [|tauto].
  destruct (String.eqb_spec w ""); simpl.
  - split; [now left|reflexivity].
  - rewrite negb_false_iff, String.eqb_eq. split; [now right|].
    intros [H|H]; [contradiction|exact H].
Qed.

Lemma selected_true environment severity source alert :
  selected environment severity source alert = true <->
  a_status alert = "active"
  /\ passes (a_environment alert) environment
  /\ passes (a_severity alert) severity
  /\ passes (a_source alert) source.
Proof.
  unfold selected. rewrite <- !filter_passes.
  destruct (String.eqb_spec (a_status alert) "active") as [E|N]; simpl.
  - destruct (truthy environment && differs (a_environment alert) environment);
      [split; [discriminate|intros [_ [H _]]; discriminate]|].
    destruct (truthy severity && differs (a_severity alert) severity);
      [split; [discriminate|intros [_ [_ [H _]]]; discriminate]|].
    destruct (truthy source && differs (a_source alert) source);
      [split; [discriminate|intros [_ [_ [_ H]]]; discriminate]|].
    tauto.
  - split; [discriminate|]. intros [E _]. contradiction.
Qed.

(** Against C8: the filter [environment=""] is given, yet the alert of
    [manager1], whose environment is ["prod"], is returned. *)
Lemma get_active_alerts_empty_filter_counterexample :
  get_active_alerts manager1 (Some "") None None = [0%nat]
  /\ a_environment (heap manager1 0%nat) = "prod"
  /\ a_environment (heap manager1 0%nat) <> "".
Proof. repeat split; try reflexivity. discriminate. Qed.

(** C8, amended. [get_active_alerts] returns, in the order of the store,
    the stored alerts whose status is active and which are equal to each
    filter given as a non-empty string; a filter that is [None] or the
    empty string selects nothing.  No resolved alert is returned. *)
Theorem get_active_alerts_selects self environment severity source :
  get_active_alerts self environment severity source
  = filter (fun l => selected environment severity source (heap self l))
      (values (active_alerts self))
  /\ (forall l,
        In l (get_active_alerts self environment severity source) <->
        In l (values (active_alerts self))
        /\ a_status (heap self l) = "active"
        /\ passes (a_environment (heap self l)) environment
        /\ passes (a_severity (heap self l)) severity
        /\ passes (a_source (heap self l)) source)
  /\ (forall l,
        In l (get_active_alerts self environment severity source) ->
        a_status (heap self l) <> "resolved").
Proof.
  split; [reflexivity|].
  assert (H : forall l,
             In l (get_active_alerts self environment severity source) <->
             In l (values (active_alerts self))
             /\ a_status (heap self l) = "active"
             /\ passes (a_environment (heap self l)) environment
             /\ passes (a_severity (heap self l)) severity
             /\ passes (a_source (heap self l)) source).
  { intros l. unfold get_active_alerts.
    rewrite filter_In, selected_true. tauto. }
  split; [exact H|].
  intros l HI. apply H in HI as [_ [E _]]. rewrite E. discriminate.
Qed.

(** ** PagerDuty *)

Lemma pagerduty_enabled_in_services config :
  pagerduty_enabled (notification_pagerduty config) = true ->
  In ("pagerduty", PagerDutyNotifier.new (notification_pagerduty config))
     (_initialize_notification_services config).
Proof.
  intros H. unfold _initialize_notification_services. rewrite H.
  apply dict_get_In, dict_get_set_eq.
Qed.

(** C10. On an alert whose severity is info or warning,
    [PagerDutyNotifier.send_alert] returns without a request, although the
    manager, which holds back info alone, does call it for a warning. *)
Theorem pagerduty_skips_info_and_warning config env alert self ty src msg det
    envir rel :
  (a_severity alert = AlertSeverity.INFO
   \/ a_severity alert = AlertSeverity.WARNING ->
   PagerDutyNotifier.send_alert config env alert = ([], inr tt))
  /\ (In ("pagerduty", PagerDutyNotifier.new config)
        (notification_services self) ->
      ~ has_fresh_duplicate env self ty src AlertSeverity.WARNING envir ->
      let o := create_alert env self ty src AlertSeverity.WARNING msg det
                 envir rel in
      In (Call "pagerduty" OpSendAlert (heap (final o) (next_loc self))
            [] (inr tt)) (trace o)).
Proof.
  split.
  - unfold PagerDutyNotifier.send_alert. intros [H|H]; rewrite H; reflexivity.
  - intros HI Hdup o.
    pose proof (create_alert_creates env self ty src AlertSeverity.WARNING
                  msg det envir rel Hdup) as Eo.
    cbv zeta in Eo. fold o in Eo. rewrite Eo. simpl.
    rewrite Nat.eqb_refl. unfold _send_notifications. simpl.
    exact (In_dispatch env OpSendAlert _ _
             (setitem (new_alert env ty src AlertSeverity.WARNING msg det
                         envir rel) (I_count 1)) _ _ HI).
Qed.

(** PagerDuty is enabled and a warning comes in: the notifier is called,
    and posts nothing. *)
Lemma pagerduty_skips_info_and_warning_witness :
  In ("pagerduty",
      PagerDutyNotifier.new (notification_pagerduty config_all))
     (notification_services manager_all)
  /\ (let o := create_alert (utc_host "id-1" (100 * second) None) manager_all
                 "latency_spike" "checkout-api" "warning"
                 "p99 above threshold" None "prod" None in
      In (Call "pagerduty" OpSendAlert (heap (final o) 0%nat) [] (inr tt))
         (trace o)).
Proof.
  assert (HI : In ("pagerduty",
                   PagerDutyNotifier.new (notification_pagerduty config_all))
                  (notification_services manager_all)).
  { apply pagerduty_enabled_in_services. reflexivity. }
  split; [exact HI|].
  destruct (pagerduty_skips_info_and_warning
              (notification_pagerduty config_all)
              (utc_host "id-1" (100 * second) None) blank manager_all
              "latency_spike" "checkout-api" "p99 above threshold" None
              "prod" None) as [_ H].
  apply H; [exact HI|apply no_duplicate_in_empty].
Defined.

(** * Further properties of the manager *)

(** ** One call, seen from the heap *)

(** A call leaves the manager as it is, or rewrites one stored alert by a
    merge or a resolution, or stores one new alert. *)
Lemma serve_cases self q :
  wf self ->
  serve self q = self
  \/ (exists env l,
        In l (values (active_alerts self))
        /\ serve self q = store self l (merged env (heap self l)))
  \/ (exists env m l,
        In l (values (active_alerts self))
        /\ serve self q = store self l (resolved env m (heap self l)))
  \/ (exists env ty src sev msg det envir rel,
        serve self q
        = stored env self
            (setitem (new_alert env ty src sev msg det envir rel)
               (I_count 1))).
Proof.
  intros Hwf. destruct q as [env ty src sev msg det envir rel|env id m]; simpl.
  - destruct (_check_for_duplicate env self
                (new_alert env ty src sev msg det envir rel)) as [l|] eqn:E.
    + right. left. exists env, l.
      rewrite (create_alert_duplicate _ _ _ _ _ _ _ _ _ _ Hwf E).
      apply first_duplicate_Some in E as [HI _]. now split.
    + right. right. right. exists env, ty, src, sev, msg, det, envir, rel.
      now rewrite (create_alert_fresh _ _ _ _ _ _ _ _ _ E).
  - destruct (get_alert_by_id self id) as [l|] eqn:E.
    + right. right. left. exists env, m, l.
      rewrite (resolve_alert_found _ _ _ _ _ E). split; [|reflexivity].
      apply In_values with id. now apply dict_get_In.
    + left. now rewrite (resolve_alert_missing _ _ _ _ E).
Qed.

Lemma wf_serve self q : wf self -> wf (serve self q).
Proof.
  intros Hwf. destruct q; simpl;
    [now apply wf_create_alert|now apply wf_resolve_alert].
Qed.

Lemma wf_run qs self : wf self -> wf (run qs self).
Proof.
  revert self. induction qs as [|q qs IH]; intros self Hwf; [exact Hwf|].
  simpl. apply IH. now apply wf_serve.
Qed.

Lemma reachable_run qs self : reachable self -> reachable (run qs self).
Proof.
  revert self. induction qs as [|q qs IH]; intros self Hr; [exact Hr|].
  simpl. apply IH. destruct q; simpl; now constructor.
Qed.

(** What a property of allocated alerts needs to survive every call. *)
Section Preserved.
Variable R : Alert -> Alert -> Prop.
Hypothesis R_refl : forall a, R a a.
Hypothesis R_trans : forall a b c, R a b -> R b c -> R a c.
Hypothesis R_merged : forall env a, R a (merged env a).
Hypothesis R_resolved : forall env m a, R a (resolved env m a).

Lemma serve_preserves self q l :
  wf self -> (l < next_loc self)%nat ->
  R (heap self l) (heap (serve self q) l)
  /\ (next_loc self <= next_loc (serve self q))%nat.
Proof.
  intros Hwf Hl.
  destruct (serve_cases self q Hwf)
    as [->|[[env [l' [HI ->]]]|[[env [m [l' [HI ->]]]]
       |[env [ty [src [sev [msg [det [envir [rel ->]]]]]]]]]]]; simpl.
  - split; [apply R_refl|apply Nat.le_refl].
  - split; [|apply Nat.le_refl].
    destruct (Nat.eqb_spec l l') as [->|_]; [apply R_merged|apply R_refl].
  - split; [|apply Nat.le_refl].
    destruct (Nat.eqb_spec l l') as [->|_]; [apply R_resolved|apply R_refl].
  - split; [|apply Nat.le_succ_diag_r].
    destruct (Nat.eqb_spec l (next_loc self)) as [E|_];
      [exfalso; rewrite E in Hl; now apply Nat.lt_irrefl in Hl|apply R_refl].
Qed.

Lemma run_preserves qs self l :
  wf self -> (l < next_loc self)%nat ->
  R (heap self l) (heap (run qs self) l).
Proof.
  revert self. induction qs as [|q qs IH]; intros self Hwf Hl;
    [apply R_refl|].
  simpl. destruct (serve_preserves self q l Hwf Hl) as [H1 H2].
  apply R_trans with (heap (serve self q) l); [exact H1|].
  apply IH; [now apply wf_serve|].
  apply Nat.lt_le_trans with (next_loc self); assumption.
Qed.
End Preserved.

(** ** What no sequence of calls undoes *)

Lemma wf_manager1 : wf manager1.
Proof. apply wf_create_alert, wf_init. Defined.

Lemma wf_manager4 : wf manager4.
Proof. apply wf_resolve_alert, wf_create_alert, wf_init. Defined.

(** X1. A resolved alert stays resolved: no sequence of [create_alert] and
    [resolve_alert] calls gives it another status. *)
Theorem resolved_is_final qs self l :
  wf self -> (l < next_loc self)%nat ->
  a_status (heap self l) = "resolved" ->
  a_status (heap (run qs self) l) = "resolved".
Proof.
  intros Hwf Hl Hst.
  apply (run_preserves
           (fun a b => a_status a = "resolved" -> a_status b = "resolved"));
    auto.
Qed.

Lemma resolved_is_final_witness :
  wf manager4 /\ (0 < next_loc manager4)%nat
  /\ a_status (heap manager4 0%nat) = "resolved"
  /\ a_status (heap (run requests4 manager4) 0%nat) = "resolved".
Proof.
  split; [exact wf_manager4|]. split; [apply Nat.lt_0_succ|].
  split; [reflexivity|].
  apply (resolved_is_final requests4 manager4 0%nat wf_manager4);
    [apply Nat.lt_0_succ|reflexivity].
Defined.



(** X3. The id, the signature (type, source, severity, environment), the
    message, the details, the related entities and the creation time of an
    alert are never changed by any sequence of calls. *)
Theorem identity_never_changes qs self l :
  wf self -> (l < next_loc self)%nat ->
  same_identity (heap self l) (heap (run qs self) l).
Proof.
  intros Hwf Hl. apply (run_preserves same_identity); try assumption.
  - intros a. repeat split.
  - intros a b c [H1 [H2 [H3 [H4 [H5 [H6 [H7 [H8 H9]]]]]]]]
      [G1 [G2 [G3 [G4 [G5 [G6 [G7 [G8 G9]]]]]]]].
    repeat split; etransitivity; eassumption.
  - intros env a. repeat split.
  - intros env m a. repeat split.
Qed.

Lemma identity_never_changes_witness :
  wf manager1 /\ (0 < next_loc manager1)%nat
  /\ same_identity (heap manager1 0%nat) (heap (run requests1 manager1) 0%nat).
Proof.
  split; [exact wf_manager1|]. split; [apply Nat.lt_0_succ|].
  apply (identity_never_changes requests1 manager1 0%nat wf_manager1).
  apply Nat.lt_0_succ.
Defined.

Lemma serve_extends self q :
  wf self ->
  exists ks hs,
    keys (active_alerts (serve self q)) = (keys (active_alerts self) ++ ks)%list
    /\ alert_history (serve self q) = (alert_history self ++ hs)%list.
Proof.
  intros Hwf.
  destruct (serve_cases self q Hwf)
    as [->|[[env [l' [HI ->]]]|[[env [m [l' [HI ->]]]]
       |[env [ty [src [sev [msg [det [envir [rel ->]]]]]]]]]]]; simpl;
    try (exists [], []; now rewrite !app_nil_r).
  destruct (keys_dict_set _ (active_alerts self) (uuid4 env) (next_loc self))
    as [->|[_ ->]].
  - exists [], [next_loc self]. now rewrite app_nil_r.
  - now exists [uuid4 env], [next_loc self].
Qed.

(** X4. Nothing is ever removed: after any sequence of calls the ids of
    the store begin with the ids it had, in the same order, the history
    begins with the history it had, and an id that could be looked up
    still can, resolved or not. *)
Theorem nothing_is_removed qs self :
  wf self ->
  (exists ks, keys (active_alerts (run qs self))
              = (keys (active_alerts self) ++ ks)%list)
  /\ (exists hs, alert_history (run qs self)
                 = (alert_history self ++ hs)%list)
  /\ (forall alert_id,
        get_alert_by_id self alert_id <> None ->
        get_alert_by_id (run qs self) alert_id <> None).
Proof.
  intros Hwf.
  assert (H : exists ks hs,
             keys (active_alerts (run qs self))
             = (keys (active_alerts self) ++ ks)%list
             /\ alert_history (run qs self)
                = (alert_history self ++ hs)%list).
  { revert self Hwf. induction qs as [|q qs IH]; intros self Hwf; simpl.
    - exists [], []. now rewrite !app_nil_r.
    - destruct (IH (serve self q) (wf_serve self q Hwf)) as [ks [hs [Hk Hh]]].
      destruct (serve_extends self q Hwf) as [ks' [hs' [Hk' Hh']]].
      exists (ks' ++ ks)%list, (hs' ++ hs)%list.
      rewrite Hk, Hh, Hk', Hh', !app_assoc. now split. }
  destruct H as [ks [hs [Hk Hh]]].
  split; [now exists ks|]. split; [now exists hs|].
  intros alert_id Hget Hnone. apply Hget.
  unfold get_alert_by_id in *. rewrite dict_get_None in *.
  intros HI. apply Hnone. rewrite Hk. apply in_or_app. now left.
Qed.

Lemma nothing_is_removed_witness :
  wf manager4
  /\ get_alert_by_id manager4 "id-3" <> None
  /\ get_alert_by_id (run requests4 manager4) "id-3" <> None.
Proof.
  split; [exact wf_manager4|]. split; [discriminate|].
  destruct (nothing_is_removed requests4 manager4 wf_manager4) as [_ [_ H]].
  apply H. discriminate.
Defined.

Lemma consistent_merged env a : consistent a -> consistent (merged env a).
Proof. intros H. exact H. Qed.

Lemma consistent_resolved env m a : consistent (resolved env m a).
Proof. right. repeat split; discriminate. Qed.

(** X5. In every manager that a program can build, every alert ever
    created is active without the keys ["resolved_at"] and
    ["resolution_message"], or resolved with both. *)
Theorem resolution_keys_follow_status self l :
  reachable self -> (l < next_loc self)%nat -> consistent (heap self l).
Proof.
  intros Hr. revert l.
  assert (Hstep : forall self q,
             wf self ->
             (forall l, (l < next_loc self)%nat -> consistent (heap self l)) ->
             forall l, (l < next_loc (serve self q))%nat ->
                       consistent (heap (serve self q) l)).
  { clear. intros self q Hwf IH l.
    destruct (serve_cases self q Hwf)
      as [->|[[env [l' [HI ->]]]|[[env [m [l' [HI ->]]]]
         |[env [ty [src [sev [msg [det [envir [rel ->]]]]]]]]]]]; simpl.
    - apply IH.
    - intros Hl. destruct (Nat.eqb_spec l l') as [->|_];
        [apply consistent_merged|]; now apply IH.
    - intros Hl. destruct (Nat.eqb_spec l l') as [->|_];
        [apply consistent_resolved|now apply IH].
    - intros Hl. destruct (Nat.eqb_spec l (next_loc self)) as [->|Hne].
      + left. repeat split.
      + apply IH. lia. }
  induction Hr as [file|env self ty src sev msg det envir rel Hr IH
                  |env self id m Hr IH]; intros l.
  - simpl. intros Hl. now apply Nat.nlt_0_r in Hl.
  - apply (Hstep self (CreateAlert env ty src sev msg det envir rel));
      [now apply reachable_wf|exact IH].
  - apply (Hstep self (ResolveAlert env id m));
      [now apply reachable_wf|exact IH].
Qed.

Lemma resolution_keys_follow_status_witness :
  reachable manager4 /\ (0 < next_loc manager4)%nat
  /\ consistent (heap manager4 0%nat).
Proof.
  assert (Hr : reachable manager4) by (repeat constructor).
  split; [exact Hr|]. split; [apply Nat.lt_0_succ|].
  apply (resolution_keys_follow_status manager4 0%nat Hr), Nat.lt_0_succ.
Defined.

(** ** Storing and looking up *)

(** X6. The alert that [create_alert] returns is in the store under its
    own id: [get_alert_by_id] with the ["id"] of the returned dict gives
    that dict back. *)
Theorem created_alert_is_found_by_id env self ty src sev msg det envir rel :
  wf self ->
  let o := create_alert env self ty src sev msg det envir rel in
  exists l,
    value o = inr l
    /\ get_alert_by_id (final o) (a_id (heap (final o) l)) = Some l.
Proof.
  intros Hwf o.
  destruct (create_alert_returns env self ty src sev msg det envir rel Hwf)
    as [l [Hv [HI _]]]. fold o in Hv, HI.
  exists l. split; [exact Hv|].
  assert (Hwf' : wf (final o)) by now apply wf_create_alert.
  apply In_values_inv in HI as [k HI].
  rewrite (wf_id Hwf' _ _ HI). unfold get_alert_by_id.
  now apply In_dict_get; [apply (wf_keys Hwf')|].
Qed.

Lemma created_alert_is_found_by_id_witness :
  wf manager1
  /\ exists l,
       value (create_alert (utc_host "id-2" (101 * second) None) manager1
                "latency_spike" "checkout-api" "warning" "p99 still high"
                (Some [("p99", JInt 950)]) "prod" None) = inr l
       /\ get_alert_by_id manager2 (a_id (heap manager2 l)) = Some l.
Proof.
  split; [exact wf_manager1|].
  exact (created_alert_is_found_by_id
           (utc_host "id-2" (101 * second) None) manager1
           "latency_spike" "checkout-api" "warning" "p99 still high"
           (Some [("p99", JInt 950)]) "prod" None wf_manager1).
Defined.

(** ** The channels of a manager *)

Lemma keys_initialize_notification_services config :
  keys (_initialize_notification_services config)
  = filter (channel_enabled config) ["email"; "slack"; "pagerduty"].
Proof.
  unfold _initialize_notification_services, channel_enabled. simpl.
  destruct (email_enabled (notification_email config)),
    (slack_enabled (notification_slack config)),
    (pagerduty_enabled (notification_pagerduty config)); reflexivity.
Qed.

Lemma serve_static self q :
  config (serve self q) = config self
  /\ notification_services (serve self q) = notification_services self.
Proof.
  destruct q as [env ty src sev msg det envir rel|env id m]; simpl.
  - unfold create_alert.
    destruct (_check_for_duplicate env self _) as [l|]; [|now split].
    unfold _update_alert.
    destruct (dict_get _ (active_alerts self)); now split.
  - unfold resolve_alert.
    destruct (dict_get id (active_alerts self)); now split.
Qed.

Lemma reachable_services self :
  reachable self ->
  notification_services self
  = _initialize_notification_services (config self).
Proof.
  induction 1 as [file|env self ty src sev msg det envir rel _ IH
                 |env self id m _ IH].
  - reflexivity.
  - destruct (serve_static self (CreateAlert env ty src sev msg det envir rel))
      as [Hc Hs]. simpl in Hc, Hs. now rewrite Hc, Hs.
  - destruct (serve_static self (ResolveAlert env id m)) as [Hc Hs].
    simpl in Hc, Hs. now rewrite Hc, Hs.
Qed.

Lemma calls_create_alert env self ty src sev msg det envir rel op :
  calls op (trace (create_alert env self ty src sev msg det envir rel)) = []
  \/ calls op (trace (create_alert env self ty src sev msg det envir rel))
     = keys (notification_services self).
Proof.
  unfold create_alert.
  destruct (_check_for_duplicate env self _) as [l|].
  - destruct (_update_alert _ _ _ _) as [self' [e|l']]; now left.
  - simpl. unfold _send_notifications. simpl.
    destruct (sev =? AlertSeverity.INFO)%string; [now left|].
    destruct op; [right; apply calls_dispatch|left].
    now apply calls_dispatch_other.
Qed.

Lemma calls_resolve_alert env self alert_id m op :
  calls op (trace (resolve_alert env self alert_id m)) = []
  \/ calls op (trace (resolve_alert env self alert_id m))
     = keys (notification_services self).
Proof.
  unfold resolve_alert.
  destruct (dict_get alert_id (active_alerts self)) as [l|]; [|now left].
  simpl. unfold _send_resolution_notification. simpl.
  destruct (negb _); [now left|].
  destruct op; [left|right; apply calls_dispatch].
  now apply calls_dispatch_other.
Qed.

(** X7. The channels are chosen once, from the configuration with which
    the manager was built: whatever calls came before, [create_alert] and
    [resolve_alert] call only notifiers whose [enabled] flag is set, and
    none but email, slack and pagerduty. *)
Theorem only_enabled_channels_are_called self env ty src sev msg det envir rel
    alert_id resolution_message op name :
  reachable self ->
  In name (calls op (trace (create_alert env self ty src sev msg det envir
                              rel)))
  \/ In name (calls op (trace (resolve_alert env self alert_id
                                 resolution_message))) ->
  channel_enabled (config self) name = true
  /\ In name ["email"; "slack"; "pagerduty"].
Proof.
  intros Hr H.
  assert (HI : In name (keys (notification_services self))).
  { destruct H as [H|H].
    - destruct (calls_create_alert env self ty src sev msg det envir rel op)
        as [E|E]; rewrite E in H; [destruct H|exact H].
    - destruct (calls_resolve_alert env self alert_id resolution_message op)
        as [E|E]; rewrite E in H; [destruct H|exact H]. }
  rewrite (reachable_services self Hr),
    keys_initialize_notification_services, filter_In in HI.
  tauto.
Qed.

Lemma only_enabled_channels_are_called_witness :
  reachable manager1
  /\ In "slack"
       (calls OpSendAlert
          (trace (create_alert (utc_host "id-9" (900 * second) None) manager1
                    "error_rate" "payment-api" "error" "5xx above 5%" None
                    "prod" None)))
  /\ channel_enabled (config manager1) "slack" = true.
Proof.
  assert (Hr : reachable manager1) by (repeat constructor).
  assert (HI : In "slack"
                 (calls OpSendAlert
                    (trace (create_alert (utc_host "id-9" (900 * second) None)
                              manager1 "error_rate" "payment-api" "error"
                              "5xx above 5%" None "prod" None)))).
  { right. now left. }
  split; [exact Hr|]. split; [exact HI|].
  apply (only_enabled_channels_are_called manager1
           (utc_host "id-9" (900 * second) None)
           "error_rate" "payment-api" "error" "5xx above 5%" None "prod" None
           "" None OpSendAlert "slack" Hr).
  left. exact HI.
Defined.

(** ** The notifiers of this file *)

Lemma builtin_services config name service :
  In (name, service) (_initialize_notification_services config) ->
  service = EmailNotifier.new (notification_email config)
  \/ service = SlackNotifier.new (notification_slack config)
  \/ service = PagerDutyNotifier.new (notification_pagerduty config).
Proof.
  unfold _initialize_notification_services.
  destruct (email_enabled (notification_email config)),
    (slack_enabled (notification_slack config)),
    (pagerduty_enabled (notification_pagerduty config)); simpl;
    intros H;
    repeat (destruct H as [H|H]; [inversion H; subst; auto|]);
    destruct H.
Qed.

Lemma bind_ret_l (A B : Type) (x : A) (k : A -> Action B) :
  bind (ret x) k = k x.
Proof. unfold bind, ret. now destruct (k x). Qed.

Lemma In_dispatch_inv env op failed services alert name op' a fx r :
  In (Call name op' a fx r) (dispatch env op failed services alert) ->
  op' = op /\ a = alert
  /\ exists service,
       In (name, service) services
       /\ invoke op service env alert = (fx, r).
Proof.
  induction services as [|[name0 service0] services IH]; [intros []|].
  simpl. destruct (invoke op service0 env alert) as [fx0 r0] eqn:E.
  intros [[= <- <- <- <- <-]|HI].
  - split; [reflexivity|]. split; [reflexivity|].
    exists service0. split; [now left|exact E].
  - apply in_app_iff in HI as [HI|HI].
    + destruct r0 as [e|u]; [destruct HI as [H|[]]; discriminate|destruct HI].
    + destruct (IH HI) as [Ho [Ha [service [Hs Hi]]]].
      split; [exact Ho|]. split; [exact Ha|].
      exists service. split; [now right|exact Hi].
Qed.

Lemma post_or_raise_no_key_error env url p prefix key :
  snd (post_or_raise env url p prefix) <> inl (KeyError key).
Proof.
  unfold post_or_raise. simpl.
  destruct (requests_post env url p); discriminate.
Qed.

Lemma builtin_send_resolution_finds_resolved_at config env name service
    alert t :
  In (name, service) (_initialize_notification_services config) ->
  a_resolved_at alert = Some t ->
  snd (send_resolution service env alert) <> inl (KeyError "resolved_at").
Proof.
  intros HI Ht.
  destruct (builtin_services config name service HI) as [-> | [-> | ->]];
    simpl.
  - unfold EmailNotifier.send_resolution, getitem_resolved_at.
    rewrite Ht, bind_ret_l. discriminate.
  - unfold SlackNotifier.send_resolution, getitem_resolved_at.
    rewrite Ht, bind_ret_l. apply post_or_raise_no_key_error.
  - unfold PagerDutyNotifier.send_resolution, getitem_resolved_at.
    rewrite Ht, bind_ret_l. apply post_or_raise_no_key_error.
Qed.

(** X8. Whatever calls came before, the alert that [resolve_alert] hands
    to a notifier is the stored alert as resolved by this call: status
    ["resolved"], ["resolved_at"] the time of the call, the message given.
    So no [send_resolution] of a manager built by [__init__] raises
    [KeyError('resolved_at')] (see X9) when the manager calls it. *)
Theorem resolve_alert_hands_over_resolved_at self env alert_id
    resolution_message name op a fx r :
  reachable self ->
  let o := resolve_alert env self alert_id resolution_message in
  In (Call name op a fx r) (trace o) ->
  op = OpSendResolution
  /\ (exists l, get_alert_by_id self alert_id = Some l
                /\ a = heap (final o) l)
  /\ a_status a = "resolved"
  /\ a_resolved_at a = Some (utcnow env 0)
  /\ a_resolution_message a = Some resolution_message
  /\ r <> inl (KeyError "resolved_at").
Proof.
  intros Hr o HI. pose proof (reachable_services self Hr) as Hs.
  destruct (get_alert_by_id self alert_id) as [l|] eqn:E.
  - pose proof (resolve_alert_found env self alert_id resolution_message l E)
      as Eo. cbv zeta in Eo. fold o in Eo. rewrite Eo in HI |- *.
    simpl in HI. unfold _send_resolution_notification in HI.
    destruct (negb _); [destruct HI|]. simpl in HI.
    apply In_dispatch_inv in HI as [-> [-> [service [Hin Hinv]]]].
    split; [reflexivity|]. split.
    { exists l. split; [reflexivity|]. simpl. now rewrite Nat.eqb_refl. }
    repeat (split; [reflexivity|]).
    rewrite Hs in Hin.
    pose proof (builtin_send_resolution_finds_resolved_at (config self) env
                  name service
                  (resolved env resolution_message (heap self l))
                  (utcnow env 0) Hin eq_refl) as Hk.
    intros Hbad. apply Hk. subst r. exact (f_equal snd Hinv).
  - pose proof (resolve_alert_missing env self alert_id resolution_message E)
      as Eo. fold o in Eo. rewrite Eo in HI. destruct HI.
Qed.

(** The resolution of the critical alert of [manager3] as the email
    notifier sees it. *)
Lemma resolve_alert_hands_over_resolved_at_witness :
  reachable manager3
  /\ In (Call "email" OpSendResolution (heap manager4 0%nat)
           [Stdout "Sending resolution email to" ["ops@example.com"]
              "[RESOLVED] 5xx above 10%"] (inr tt))
        (trace (resolve_alert (utc_host "" (260 * second) None) manager3
                  "id-3" (Some "rolled back deploy")))
  /\ a_resolved_at (heap manager4 0%nat) = Some (260 * second).
Proof.
  assert (Hr : reachable manager3) by (repeat constructor).
  assert (HI : In (Call "email" OpSendResolution (heap manager4 0%nat)
                     [Stdout "Sending resolution email to"
                        ["ops@example.com"] "[RESOLVED] 5xx above 10%"]
                     (inr tt))
                  (trace (resolve_alert (utc_host "" (260 * second) None)
                            manager3 "id-3" (Some "rolled back deploy")))).
  { left. reflexivity. }
  split; [exact Hr|]. split; [exact HI|].
  apply (resolve_alert_hands_over_resolved_at manager3
           (utc_host "" (260 * second) None) "id-3"
           (Some "rolled back deploy") "email" OpSendResolution
           (heap manager4 0%nat) _ _ Hr HI).
Defined.

(** X9. Called on an alert that was never resolved, [send_resolution] of
    each of the three notifiers raises [KeyError('resolved_at')] before it
    prints or sends anything. *)
Theorem send_resolution_needs_resolved_at email slack pagerduty env alert :
  a_resolved_at alert = None ->
  EmailNotifier.send_resolution email env alert
  = ([], inl (KeyError "resolved_at"))
  /\ SlackNotifier.send_resolution slack env alert
     = ([], inl (KeyError "resolved_at"))
  /\ PagerDutyNotifier.send_resolution pagerduty env alert
     = ([], inl (KeyError "resolved_at")).
Proof.
  intros H.
  unfold EmailNotifier.send_resolution, SlackNotifier.send_resolution,
    PagerDutyNotifier.send_resolution, getitem_resolved_at.
  rewrite H. repeat split.
Qed.

Lemma send_resolution_needs_resolved_at_witness :
  a_resolved_at (heap manager3 0%nat) = None
  /\ SlackNotifier.send_resolution (notification_slack default_config)
       (utc_host "" (260 * second) None) (heap manager3 0%nat)
     = ([], inl (KeyError "resolved_at")).
Proof.
  split; [reflexivity|].
  apply (send_resolution_needs_resolved_at
           (notification_email default_config)
           (notification_slack default_config)
           (notification_pagerduty default_config)
           (utc_host "" (260 * second) None) (heap manager3 0%nat)).
  reflexivity.
Defined.

(** ** More on deduplication *)

Lemma first_duplicate_split env w h alert items l :
  first_duplicate env w h alert items = Some l ->
  exists before after,
    values items = (before ++ l :: after)%list
    /\ (forall l', In l' before -> hit env w h alert l' = false)
    /\ hit env w h alert l = true.
Proof.
  induction items as [|[k l0] items IH]; [discriminate|].
  rewrite first_duplicate_cons. destruct (hit env w h alert l0) eqn:E.
  - intros [= ->]. exists [], (values items).
    split; [reflexivity|]. split; [intros l' []|exact E].
  - intros H. destruct (IH H) as [before [after [Hv [Hb Hl]]]].
    exists (l0 :: before), after. simpl. rewrite Hv.
    split; [reflexivity|]. split; [|exact Hl].
    intros l' [<-|HI]; [exact E|now apply Hb].
Qed.

(** X10. When several stored alerts match an event, the event is merged
    into the one that was stored first: every alert before it in the store
    is no fresh active duplicate. *)
Theorem merge_picks_the_first_match env self ty src sev msg det envir rel :
  wf self ->
  has_fresh_duplicate env self ty src sev envir ->
  exists before l after,
    values (active_alerts self) = (before ++ l :: after)%list
    /\ (forall l', In l' before ->
                   ~ fresh_duplicate env self ty src sev envir l')
    /\ fresh_duplicate env self ty src sev envir l
    /\ value (create_alert env self ty src sev msg det envir rel) = inr l.
Proof.
  intros Hwf Hdup.
  destruct (_check_for_duplicate env self
              (new_alert env ty src sev msg det envir rel)) as [l|] eqn:E.
  - destruct (first_duplicate_split _ _ _ _ _ _ E)
      as [before [after [Hv [Hb Hl]]]].
    exists before, l, after. split; [exact Hv|]. split; [|split].
    + intros l' HI Hf.
      apply (hit_fresh_duplicate env self ty src sev msg det envir rel) in Hf.
      rewrite (Hb l' HI) in Hf. discriminate.
    + now apply (hit_fresh_duplicate env self ty src sev msg det envir rel).
    + now rewrite (create_alert_duplicate _ _ _ _ _ _ _ _ _ _ Hwf E).
  - apply check_for_duplicate_None in E. contradiction.
Qed.

(** Both alerts of [manager5] match the event stamped 350 s; the first
    one takes it. *)
Lemma merge_picks_the_first_match_witness :
  wf manager5
  /\ fresh_duplicate (utc_host "id-3" (350 * second) None) manager5
       "latency_spike" "checkout-api" "warning" "prod" 0%nat
  /\ fresh_duplicate (utc_host "id-3" (350 * second) None) manager5
       "latency_spike" "checkout-api" "warning" "prod" 1%nat
  /\ exists before l after,
       values (active_alerts manager5) = (before ++ l :: after)%list
       /\ value (create_alert (utc_host "id-3" (350 * second) None) manager5
                   "latency_spike" "checkout-api" "warning"
                   "p99 above threshold" None "prod" None) = inr l.
Proof.
  assert (Hwf : wf manager5) by apply wf_create_alert, wf_manager1.
  assert (H0 : fresh_duplicate (utc_host "id-3" (350 * second) None)
                 manager5 "latency_spike" "checkout-api" "warning" "prod"
                 0%nat).
  { repeat split; try reflexivity. vm_compute. discriminate. }
  assert (H1 : fresh_duplicate (utc_host "id-3" (350 * second) None)
                 manager5 "latency_spike" "checkout-api" "warning" "prod"
                 1%nat).
  { repeat split; try reflexivity. vm_compute. discriminate. }
  split; [exact Hwf|]. split; [exact H0|]. split; [exact H1|].
  destruct (merge_picks_the_first_match
              (utc_host "id-3" (350 * second) None) manager5
              "latency_spike" "checkout-api" "warning" "p99 above threshold"
              None "prod" None Hwf)
    as [before [l [after [Hv [_ [_ Hl]]]]]].
  - exists 0%nat. split; [now left|exact H0].
  - exists before, l, after. now split.
Defined.

(** X11. A merge does not move the window: after it, every stored alert
    is a fresh active duplicate of a later event exactly when it was
    before.  The window of an alert runs from its creation, however many
    events it has absorbed since. *)
Theorem merge_does_not_move_the_window env env' self ty src sev msg det envir
    rel ty' src' sev' envir' l' :
  wf self ->
  has_fresh_duplicate env self ty src sev envir ->
  let o := create_alert env self ty src sev msg det envir rel in
  fresh_duplicate env' (final o) ty' src' sev' envir' l'
  <-> fresh_duplicate env' self ty' src' sev' envir' l'.
Proof.
  intros Hwf Hdup o.
  destruct (create_alert_merges env self ty src sev msg det envir rel
              Hwf Hdup) as [l [_ [_ E]]].
  fold o in E. rewrite E. unfold fresh_duplicate. simpl.
  destruct (Nat.eqb_spec l' l) as [->|_]; reflexivity.
Qed.

(** The warning created at 100 s has absorbed an event at 101 s; at
    400 s + 1 us it is too old all the same. *)
Lemma merge_does_not_move_the_window_witness :
  wf manager1
  /\ has_fresh_duplicate (utc_host "id-2" (101 * second) None) manager1
       "latency_spike" "checkout-api" "warning" "prod"
  /\ ~ fresh_duplicate (utc_host "id-3" (400 * second + 1) None) manager2
         "latency_spike" "checkout-api" "warning" "prod" 0%nat.
Proof.
  assert (Hdup : has_fresh_duplicate (utc_host "id-2" (101 * second) None)
                   manager1 "latency_spike" "checkout-api" "warning" "prod").
  { exists 0%nat. split; [now left|].
    repeat split; try reflexivity. vm_compute. discriminate. }
  split; [exact wf_manager1|]. split; [exact Hdup|].
  intros H.
  apply (merge_does_not_move_the_window
           (utc_host "id-2" (101 * second) None)
           (utc_host "id-3" (400 * second + 1) None) manager1
           "latency_spike" "checkout-api" "warning" "p99 still high"
           (Some [("p99", JInt 950)]) "prod" None
           "latency_spike" "checkout-api" "warning" "prod" 0%nat
           wf_manager1 Hdup) in H.
  destruct H as [_ [Hage _]]. vm_compute in Hage. apply Hage. reflexivity.
Defined.

(** X12. A resolved alert takes no more events: when an alert has been
    resolved and no other stored alert matches, the next event with its
    signature, however soon, opens a new alert with count 1, and the
    resolved one stays as it is. *)
Theorem event_after_resolution_opens_new_alert env env' self alert_id m l
    ty src sev msg det envir rel :
  wf self ->
  get_alert_by_id self alert_id = Some l ->
  (forall l', In l' (values (active_alerts self)) -> l' <> l ->
              ~ fresh_duplicate env' self ty src sev envir l') ->
  let r := resolve_alert env self alert_id m in
  let o := create_alert env' (final r) ty src sev msg det envir rel in
  value o = inr (next_loc self)
  /\ a_status (heap (final o) (next_loc self)) = "active"
  /\ a_count (heap (final o) (next_loc self)) = Some 1
  /\ heap (final o) l = heap (final r) l
  /\ a_status (heap (final o) l) = "resolved".
Proof.
  intros Hwf Hget Hothers r o.
  pose proof (resolve_alert_found env self alert_id m l Hget) as Er.
  cbv zeta in Er. fold r in Er.
  assert (Hl : (l < next_loc self)%nat).
  { apply (wf_alloc Hwf), In_values with alert_id. now apply dict_get_In. }
  assert (Hdup : ~ has_fresh_duplicate env' (final r) ty src sev envir).
  { rewrite Er. intros [l' [HI Hf]]. simpl in HI.
    unfold fresh_duplicate in Hf. simpl in Hf.
    destruct (Nat.eqb_spec l' l) as [->|Hne].
    - destruct Hf as [Hst _]. discriminate.
    - now apply (Hothers l' HI Hne). }
  pose proof (create_alert_creates env' (final r) ty src sev msg det envir
                rel Hdup) as Eo. cbv zeta in Eo. fold o in Eo.
  rewrite Eo, Er. simpl. rewrite !Nat.eqb_refl.
  destruct (Nat.eqb_spec l (next_loc self)) as [E|_]; [lia|].
  repeat split; reflexivity.
Qed.

(** The critical alert of [manager3] is resolved at 260 s; the same event
    one second later opens a second alert. *)
Lemma event_after_resolution_opens_new_alert_witness :
  wf manager3
  /\ get_alert_by_id manager3 "id-3" = Some 0%nat
  /\ value (create_alert (utc_host "id-4" (261 * second) None) manager4
              "error_rate" "payment-api" "critical" "5xx above 10%" None
              "prod" None) = inr 1%nat.
Proof.
  assert (Hwf : wf manager3) by apply wf_create_alert, wf_init.
  split; [exact Hwf|]. split; [reflexivity|].
  apply (event_after_resolution_opens_new_alert
           (utc_host "" (260 * second) None)
           (utc_host "id-4" (261 * second) None) manager3 "id-3"
           (Some "rolled back deploy") 0%nat
           "error_rate" "payment-api" "critical" "5xx above 10%" None
           "prod" None Hwf eq_refl).
  intros l' [<-|[]] Hne. now contradiction Hne.
Defined.

(** ** The active view after a call *)

Lemma filter_store_view (f g : loc -> bool) (l : loc) (ls : list loc) :
  (forall l', l' <> l -> f l' = g l') -> f l = false ->
  filter f ls = filter (fun l' => negb (Nat.eqb l' l)) (filter g ls).
Proof.
  intros Hother Hl. induction ls as [|x ls IH]; [reflexivity|]. simpl.
  destruct (Nat.eqb_spec x l) as [->|Hne].
  - rewrite Hl. destruct (g l); simpl; [rewrite Nat.eqb_refl|]; exact IH.
  - rewrite (Hother x Hne). destruct (g x); simpl; [|exact IH].
    destruct (Nat.eqb_spec x l); [contradiction|]. simpl. now rewrite IH.
Qed.

(** X13. Resolving an alert takes it, and nothing else, out of what
    [get_active_alerts] returns, under every filter; the order of the
    others is kept. *)
Theorem resolved_alert_leaves_the_active_view env self alert_id m l
    environment severity source :
  get_alert_by_id self alert_id = Some l ->
  get_active_alerts (final (resolve_alert env self alert_id m))
    environment severity source
  = filter (fun l' => negb (Nat.eqb l' l))
      (get_active_alerts self environment severity source).
Proof.
  intros Hget. rewrite (resolve_alert_found env self alert_id m l Hget).
  unfold get_active_alerts. simpl. apply filter_store_view.
  - intros l' Hne. destruct (Nat.eqb_spec l' l); [contradiction|reflexivity].
  - now rewrite Nat.eqb_refl.
Qed.

Lemma resolved_alert_leaves_the_active_view_witness :
  get_alert_by_id manager3 "id-3" = Some 0%nat
  /\ get_active_alerts manager3 None None None = [0%nat]
  /\ get_active_alerts manager4 (Some "prod") None None = [].
Proof.
  split; [reflexivity|]. split; [reflexivity|]. unfold manager4.
  rewrite (resolved_alert_leaves_the_active_view
             (utc_host "" (260 * second) None) manager3 "id-3"
             (Some "rolled back deploy") 0%nat (Some "prod") None None
             eq_refl).
  reflexivity.
Defined.

(** X14. A newly stored alert comes last in what [get_active_alerts]
    returns, if it passes the filters; the alerts returned before are
    returned as before. *)
Theorem new_alert_joins_the_active_view env self ty src sev msg det envir rel
    environment severity source :
  wf self ->
  ~ has_fresh_duplicate env self ty src sev envir ->
  ~ In (uuid4 env) (keys (active_alerts self)) ->
  let o := create_alert env self ty src sev msg det envir rel in
  get_active_alerts (final o) environment severity source
  = (get_active_alerts self environment severity source
     ++ (if selected environment severity source
              (heap (final o) (next_loc self))
         then [next_loc self] else []))%list
  /\ get_active_alerts (final o) None None None
     = (get_active_alerts self None None None ++ [next_loc self])%list.
Proof.
  intros Hwf Hdup Hid o.
  pose proof (create_alert_creates env self ty src sev msg det envir rel
                Hdup) as Eo. cbv zeta in Eo. fold o in Eo.
  assert (H : forall e s c,
             get_active_alerts (final o) e s c
             = (get_active_alerts self e s c
                ++ (if selected e s c (heap (final o) (next_loc self))
                    then [next_loc self] else []))%list).
  { intros e s c. rewrite Eo. unfold get_active_alerts. simpl.
    rewrite (dict_set_fresh _ _ _ _ Hid). unfold values.
    rewrite map_app, filter_app. simpl. rewrite Nat.eqb_refl. f_equal.
    apply filter_ext_in. intros l' HI. apply (wf_alloc Hwf) in HI.
    destruct (Nat.eqb_spec l' (next_loc self)); [lia|reflexivity]. }
  split; [apply H|]. rewrite H. f_equal.
  rewrite Eo. simpl. now rewrite Nat.eqb_refl.
Qed.

Lemma new_alert_joins_the_active_view_witness :
  wf manager1
  /\ get_active_alerts manager5 None None None = [0%nat; 1%nat].
Proof.
  split; [exact wf_manager1|].
  destruct (new_alert_joins_the_active_view
              (utc_host "id-2" (500 * second) None) manager1
              "latency_spike" "checkout-api" "warning" "p99 above threshold"
              None "prod" None None None None wf_manager1) as [_ H].
  - intros [l [[<-|[]] [_ [Hage _]]]]. vm_compute in Hage.
    apply Hage. reflexivity.
  - simpl. intros [E|[]]. discriminate.
  - exact H.
Defined.

(** ** PagerDuty incidents *)

Lemma In_posts t name op a fx r x :
  In (Call name op a fx r) t -> In x (posts_of fx) -> In x (posts t).
Proof.
  induction t as [|[name' op' a' fx' r'|line] t IH]; [intros []| |].
  - intros [[= -> -> -> -> ->]|HI] Hx; simpl; apply in_or_app;
      [now left|right; now apply IH].
  - intros [H|HI] Hx; [discriminate|]. simpl. now apply IH.
Qed.

Lemma posts_of_post_or_raise env url p prefix :
  posts_of (fst (post_or_raise env url p prefix)) = [(url, p)].
Proof.
  unfold post_or_raise. simpl. destruct (requests_post env url p); reflexivity.
Qed.

Lemma pagerduty_send_resolution_posts pd env a t :
  a_resolved_at a = Some t ->
  exists ev,
    posts_of (fst (PagerDutyNotifier.send_resolution pd env a))
    = [(PagerDutyNotifier.events_url, PagerDutyPayload ev)]
    /\ event_type ev = "resolve" /\ incident_key ev = a_id a.
Proof.
  intros H. unfold PagerDutyNotifier.send_resolution, getitem_resolved_at.
  rewrite H, bind_ret_l. eexists. split; [apply posts_of_post_or_raise|].
  now split.
Qed.

(** X15. With PagerDuty among the channels, a new alert of severity error
    or critical triggers an incident whose key is the id of the alert, and
    the resolution of that alert sends the resolve event under the same
    key. *)
Theorem pagerduty_incident_key_is_the_alert_id pd env self ty src sev msg det
    envir rel alert_id m l :
  wf self ->
  In ("pagerduty", PagerDutyNotifier.new pd) (notification_services self) ->
  let o := create_alert env self ty src sev msg det envir rel in
  let r := resolve_alert env self alert_id m in
  (~ has_fresh_duplicate env self ty src sev envir ->
   sev = AlertSeverity.ERROR \/ sev = AlertSeverity.CRITICAL ->
   exists ev,
     In (PagerDutyNotifier.events_url, PagerDutyPayload ev) (posts (trace o))
     /\ event_type ev = "trigger"
     /\ incident_key ev = uuid4 env
     /\ get_alert_by_id (final o) (incident_key ev) = Some (next_loc self))
  /\ (get_alert_by_id self alert_id = Some l ->
      a_severity (heap self l) = AlertSeverity.ERROR
      \/ a_severity (heap self l) = AlertSeverity.CRITICAL ->
      exists ev,
        In (PagerDutyNotifier.events_url, PagerDutyPayload ev)
           (posts (trace r))
        /\ event_type ev = "resolve"
        /\ incident_key ev = alert_id).
Proof.
  intros Hwf Hpd o r. split.
  - intros Hdup Hsev.
    pose proof (create_alert_creates env self ty src sev msg det envir rel
                  Hdup) as Eo. cbv zeta in Eo. fold o in Eo.
    exists {| pd_service_key := service_key pd;
              event_type := "trigger";
              incident_key := uuid4 env;
              description := msg;
              pd_details :=
                DetailsAlert
                  (setitem (new_alert env ty src sev msg det envir rel)
                     (I_count 1)) |}.
    split; [|split; [reflexivity|split; [reflexivity|]]].
    + rewrite Eo. unfold trace, _send_notifications.
      replace (a_severity
                 (setitem (new_alert env ty src sev msg det envir rel)
                    (I_count 1)) =? AlertSeverity.INFO)%string
        with false by (destruct Hsev as [-> | ->]; reflexivity).
      eapply In_posts; [exact (In_dispatch env OpSendAlert _ _ _ _ _ Hpd)|].
      destruct Hsev as [-> | ->];
        unfold invoke, PagerDutyNotifier.new, send_alert,
          PagerDutyNotifier.send_alert; simpl;
        rewrite posts_of_post_or_raise; left; reflexivity.
    + rewrite Eo. unfold get_alert_by_id. simpl. apply dict_get_set_eq.
  - intros Hget Hsev.
    pose proof (resolve_alert_found env self alert_id m l Hget) as Er.
    cbv zeta in Er. fold r in Er.
    assert (Hid : a_id (heap self l) = alert_id).
    { apply (wf_id Hwf). now apply dict_get_In. }
    destruct (pagerduty_send_resolution_posts pd env
                (resolved env m (heap self l)) (utcnow env 0) eq_refl)
      as [ev [Hp [Ht Hk]]].
    exists ev. split; [|split; [exact Ht|now rewrite Hk]].
    rewrite Er. unfold trace, _send_resolution_notification.
    replace (negb
               ((a_severity (resolved env m (heap self l))
                 =? AlertSeverity.ERROR)%string
                || (a_severity (resolved env m (heap self l))
                    =? AlertSeverity.CRITICAL)%string))
      with false
      by (simpl; destruct Hsev as [-> | ->]; reflexivity).
    eapply In_posts; [exact (In_dispatch env OpSendResolution _ _ _ _ _ Hpd)|].
    unfold invoke, PagerDutyNotifier.new, send_resolution.
    rewrite Hp. now left.
Qed.

Lemma pagerduty_incident_key_is_the_alert_id_witness :
  wf manager_all3
  /\ In ("pagerduty",
         PagerDutyNotifier.new (notification_pagerduty config_all))
        (notification_services manager_all3)
  /\ get_alert_by_id manager_all3 "id-3" = Some 0%nat
  /\ exists ev,
       In (PagerDutyNotifier.events_url, PagerDutyPayload ev)
          (posts (trace (resolve_alert (utc_host "" (260 * second) None)
                           manager_all3 "id-3" None)))
       /\ event_type ev = "resolve" /\ incident_key ev = "id-3".
Proof.
  assert (Hwf : wf manager_all3) by apply wf_create_alert, wf_init.
  assert (Hpd : In ("pagerduty",
                    PagerDutyNotifier.new (notification_pagerduty config_all))
                   (notification_services manager_all3)).
  { right. right. now left. }
  split; [exact Hwf|]. split; [exact Hpd|]. split; [reflexivity|].
  destruct (pagerduty_incident_key_is_the_alert_id
              (notification_pagerduty config_all)
              (utc_host "" (260 * second) None) manager_all3
              "" "" "" "" None "" None "id-3" None 0%nat Hwf Hpd)
    as [_ H].
  apply H; [reflexivity|now right].
Defined.

(** * The correlator of anomalies *)

(** ** Grouping into a dict of lists *)

Section GroupFacts.
Variables (K V : Type) (eqb : K -> K -> bool).
Hypothesis eqb_eq : forall a b, eqb a b = true <-> a = b.

Lemma eqb_neq a b : eqb a b = false <-> a <> b.
Proof.
  split.
  - intros H E. apply eqb_eq in E. rewrite E in H. discriminate.
  - intros H. destruct (eqb a b) eqn:E; [|reflexivity].
    apply eqb_eq in E. contradiction.
Qed.

Lemma filed_under_append_at (k : K) (v : V) d k' :
  filed_under eqb k' (append_at eqb k v d)
  = if eqb k k' then (filed_under eqb k' d ++ [v])%list
    else filed_under eqb k' d.
Proof.
  induction d as [|[k0 vs] d IH]; simpl.
  - destruct (eqb k k'); reflexivity.
  - destruct (eqb k0 k) eqn:E0; simpl.
    + apply eqb_eq in E0. subst k0. destruct (eqb k k'); reflexivity.
    + destruct (eqb k0 k') eqn:E1; [|exact IH].
      apply eqb_eq in E1. subst k0. apply eqb_neq in E0.
      replace (eqb k k') with false; [reflexivity|].
      symmetry. apply eqb_neq. congruence.
Qed.

Lemma filed_under_group_by (key : V -> option K) vs d k :
  filed_under eqb k (group_by eqb key vs d)
  = (filed_under eqb k d ++ filter (has_key eqb key k) vs)%list.
Proof.
  revert d. induction vs as [|v vs IH]; intros d; simpl.
  - now rewrite app_nil_r.
  - assert (Hk : has_key eqb key k v
                 = match key v with
                   | Some k' => eqb k' k
                   | None => false
                   end) by reflexivity.
    rewrite Hk. destruct (key v) as [k0|]; [|apply IH].
    rewrite IH, filed_under_append_at.
    destruct (eqb k0 k); [now rewrite <- app_assoc|reflexivity].
Qed.

Lemma keys_append_at (k : K) (v : V) d :
  map fst (append_at eqb k v d) = map fst d
  \/ (~ In k (map fst d)
      /\ map fst (append_at eqb k v d) = (map fst d ++ [k])%list).
Proof.
  induction d as [|[k0 vs] d IH]; simpl.
  - right. split; [intros []|reflexivity].
  - destruct (eqb k0 k) eqn:E; simpl; [now left|].
    apply eqb_neq in E.
    destruct IH as [->|[HI ->]]; [now left|right].
    split; [|reflexivity]. intros [H|H]; [contradiction|now apply HI].
Qed.

Lemma In_append_at (k : K) (v : V) d k' l :
  In (k', l) (append_at eqb k v d) -> l <> [] \/ In (k', l) d.
Proof.
  induction d as [|[k0 vs] d IH]; simpl.
  - intros [[= <- <-]|[]]. left. discriminate.
  - destruct (eqb k0 k); simpl.
    + intros [[= <- <-]|H]; [left|right; now right].
      intros E. now apply app_eq_nil in E as [_ E].
    + intros [H|H]; [right; now left|].
      destruct (IH H) as [Hl|HI]; [now left|right; now right].
Qed.

Lemma tidy_append_at (k : K) (v : V) d : tidy d -> tidy (append_at eqb k v d).
Proof.
  intros [Hnd Hne]. split.
  - destruct (keys_append_at k v d) as [->|[HI ->]]; [exact Hnd|].
    now apply NoDup_snoc.
  - intros k' l H. apply In_append_at in H as [H|H]; [exact H|].
    now apply (Hne k').
Qed.

Lemma tidy_group_by (key : V -> option K) vs d :
  tidy d -> tidy (group_by eqb key vs d).
Proof.
  revert d. induction vs as [|v vs IH]; intros d Hd; simpl; [exact Hd|].
  destruct (key v); apply IH; [now apply tidy_append_at|exact Hd].
Qed.

Lemma In_filed_under (d : list (K * list V)) k l :
  NoDup (map fst d) -> In (k, l) d -> filed_under eqb k d = l.
Proof.
  induction d as [|[k0 vs] d IH]; simpl; [intros _ []|].
  intros Hnd [[= -> ->]|HI].
  - replace (eqb k k) with true by (symmetry; now apply eqb_eq).
    reflexivity.
  - inversion Hnd as [|? ? Hk0 Hnd']; subst.
    destruct (eqb k0 k) eqn:E; [|now apply IH].
    apply eqb_eq in E. subst k0. exfalso. apply Hk0.
    apply (in_map fst) in HI. exact HI.
Qed.

Lemma filed_under_In (d : list (K * list V)) k :
  filed_under eqb k d <> [] -> In (k, filed_under eqb k d) d.
Proof.
  induction d as [|[k0 vs] d IH]; simpl; [intros H; now contradiction H|].
  destruct (eqb k0 k) eqn:E.
  - apply eqb_eq in E. subst k0. intros _. now left.
  - intros H. right. now apply IH.
Qed.

(** The dict that grouping builds from the empty one holds, under each
    key, the values of that key in their order, and no other entry. *)
Lemma In_group_by (key : V -> option K) vs k l :
  In (k, l) (group_by eqb key vs [])
  <-> l = filter (has_key eqb key k) vs /\ l <> [].
Proof.
  assert (Ht : tidy (group_by eqb key vs [])).
  { apply tidy_group_by. split; [constructor|intros ? ? []]. }
  pose proof (filed_under_group_by key vs [] k) as Hf. simpl in Hf.
  split.
  - intros HI. split; [|now apply (proj2 Ht k)].
    rewrite <- Hf. symmetry. now apply In_filed_under; [apply Ht|].
  - intros [-> Hne]. rewrite <- Hf in Hne |- *. now apply filed_under_In.
Qed.
End GroupFacts.

(** ** The loops of [correlate_anomalies] *)

Lemma filter_filter (A : Type) (f g : A -> bool) (l : list A) :
  filter f (filter g l) = filter (fun x => g x && f x) l.
Proof.
  induction l as [|x l IH]; [reflexivity|]. simpl.
  destruct (g x); simpl; [destruct (f x)|]; now rewrite IH.
Qed.

Lemma filter_length_le (A : Type) (f : A -> bool) (l : list A) :
  (length (filter f l) <= length l)%nat.
Proof.
  induction l as [|x l IH]; simpl; [apply Nat.le_refl|].
  destruct (f x); simpl; lia.
Qed.

Lemma fill_buckets_inr w anomaly_events d time_buckets :
  CrossEnvironmentCorrelator.fill_buckets w anomaly_events d
    = inr time_buckets ->
  time_buckets = group_by Z.eqb (bucket_of w) anomaly_events d
  /\ (forall e, In e anomaly_events -> e_timestamp e <> None)
  /\ (anomaly_events = [] \/ w <> 0).
Proof.
  revert d. induction anomaly_events as [|e rest IH]; intros d; simpl.
  - intros [= <-]. split; [reflexivity|]. split; [intros e []|now left].
  - unfold bucket_of. destruct (e_timestamp e) as [t|] eqn:Et; [|discriminate].
    destruct (Z.eqb_spec w 0) as [|Hw]; [discriminate|].
    intros H. destruct (IH _ H) as [-> [Hall _]].
    split; [reflexivity|]. split; [|now right].
    intros e' [<-|HI]; [now rewrite Et|now apply Hall].
Qed.


Lemma fill_journeys_group_by evs d :
  CrossEnvironmentCorrelator.fill_journeys evs d
  = group_by String.eqb journey_of evs d.
Proof.
  revert d. induction evs as [|e rest IH]; intros d; [reflexivity|].
  simpl. unfold journey_of. destruct (e_journey_id e) as [j|]; [|apply IH].
  destruct (j =? "")%string; apply IH.
Qed.

Lemma In_correlation_groups b journey_events g :
  In g (CrossEnvironmentCorrelator.correlation_groups b journey_events)
  <-> exists j l,
        In (j, l) journey_events /\ (2 <= length l)%nat
        /\ g = {| correlation_id :=
                    "corr-" ++ CrossEnvironmentCorrelator.str_int b ++ "-"
                    ++ j;
                  events := l;
                  correlation_type := "request_journey";
                  journey_id := j |}.
Proof.
  induction journey_events as [|[j0 l0] rest IH]; simpl.
  - split; [intros []|intros [j [l [[] _]]]].
  - destruct (Nat.ltb_spec 1 (length l0)) as [Hlen|Hlen]; simpl; rewrite IH.
    + split.
      * intros [<-|[j [l [HI H]]]]; [exists j0, l0|exists j, l].
        -- split; [now left|]. split; [exact Hlen|reflexivity].
        -- split; [now right|exact H].
      * intros [j [l [[[= -> ->]|HI] [Hl ->]]]]; [now left|right].
        exists j, l. now split.
    + split.
      * intros [j [l [HI H]]]. exists j, l. split; [now right|exact H].
      * intros [j [l [[[= -> ->]|HI] [Hl ->]]]]; [lia|].
        exists j, l. now split.
Qed.

Lemma In_correlate_buckets time_buckets g :
  In g (CrossEnvironmentCorrelator.correlate_buckets time_buckets)
  <-> exists b evs,
        In (b, evs) time_buckets
        /\ In g (CrossEnvironmentCorrelator.correlate_bucket b evs).
Proof.
  induction time_buckets as [|[b0 evs0] rest IH]; simpl.
  - split; [intros []|intros [b [evs [[] _]]]].
  - rewrite in_app_iff, IH. split.
    + intros [H|[b [evs [HI H]]]]; [exists b0, evs0|exists b, evs];
        (split; [|exact H]); [now left|now right].
    + intros [b [evs [HI Hg]]]. destruct HI as [E|HI].
      * injection E as -> ->. now left.
      * right. exists b, evs. now split.
Qed.

Lemma in_group_split w b j e :
  j <> "" ->
  in_group w b j e
  = has_key Z.eqb (bucket_of w) b e && has_key String.eqb journey_of j e.
Proof.
  intros Hj. unfold in_group, has_key, bucket_of, journey_of.
  destruct (e_timestamp e) as [t|]; [|reflexivity].
  destruct (e_journey_id e) as [j'|]; [|now rewrite andb_false_r].
  destruct (String.eqb_spec j' "") as [->|_]; [|reflexivity].
  rewrite andb_false_r. apply andb_false_intro2.
  apply String.eqb_neq. congruence.
Qed.

Lemma filter_in_group w b j anomaly_events :
  j <> "" ->
  filter (has_key String.eqb journey_of j)
    (filter (has_key Z.eqb (bucket_of w) b) anomaly_events)
  = filter (in_group w b j) anomaly_events.
Proof.
  intros Hj. rewrite filter_filter. apply filter_ext.
  intros e. symmetry. now apply in_group_split.
Qed.

Lemma has_key_journey_not_empty j e :
  has_key String.eqb journey_of j e = true -> j <> "".
Proof.
  unfold has_key, journey_of. destruct (e_journey_id e) as [j'|];
    [|discriminate].
  destruct (String.eqb_spec j' "") as [|Hne]; [discriminate|].
  rewrite String.eqb_eq. congruence.
Qed.

(** What [correlate_anomalies] returns: one group for each bucket and each
    non-empty journey id that at least two events share, with these events
    in the order in which they were given. *)
Lemma correlate_anomalies_spec self anomaly_events w groups g :
  CrossEnvironmentCorrelator.correlate_anomalies self anomaly_events w
    = inr groups ->
  In g groups
  <-> exists b j,
        j <> ""
        /\ (2 <= length (filter (in_group w b j) anomaly_events))%nat
        /\ g = group_of w b j anomaly_events.
Proof.
  unfold CrossEnvironmentCorrelator.correlate_anomalies.
  destruct (CrossEnvironmentCorrelator.fill_buckets w anomaly_events [])
    as [err|time_buckets] eqn:E; [discriminate|].
  intros [= <-]. apply fill_buckets_inr in E as [-> _].
  rewrite In_correlate_buckets. split.
  - intros [b [evs [HI Hg]]].
    apply (In_group_by _ _ _ Z.eqb_eq) in HI as [-> Hne].
    unfold CrossEnvironmentCorrelator.correlate_bucket in Hg.
    destruct (Nat.leb_spec (length (filter (has_key Z.eqb (bucket_of w) b)
                                      anomaly_events)) 1);
      [destruct Hg|].
    rewrite fill_journeys_group_by, In_correlation_groups in Hg.
    destruct Hg as [j [l [HIj [Hlen ->]]]].
    apply (In_group_by _ _ _ String.eqb_eq) in HIj as [-> Hnej].
    assert (Hj : j <> "").
    { destruct (filter (has_key String.eqb journey_of j) _) as [|e l] eqn:Ef;
        [now contradiction Hnej|].
      assert (He : In e (e :: l)) by now left.
      rewrite <- Ef in He. apply filter_In in He as [_ He].
      now apply has_key_journey_not_empty with e. }
    rewrite (filter_in_group w b j anomaly_events Hj) in Hlen |- *.
    exists b, j. split; [exact Hj|]. split; [exact Hlen|reflexivity].
  - intros [b [j [Hj [Hlen ->]]]].
    rewrite <- (filter_in_group w b j anomaly_events Hj) in Hlen.
    pose proof (filter_length_le _ (has_key String.eqb journey_of j)
                  (filter (has_key Z.eqb (bucket_of w) b) anomaly_events))
      as Hle.
    exists b, (filter (has_key Z.eqb (bucket_of w) b) anomaly_events).
    split.
    + apply (In_group_by _ _ _ Z.eqb_eq). split; [reflexivity|].
      intros E. rewrite E in Hlen. simpl in Hlen. lia.
    + unfold CrossEnvironmentCorrelator.correlate_bucket.
      destruct (Nat.leb_spec (length (filter (has_key Z.eqb (bucket_of w) b)
                                        anomaly_events)) 1); [lia|].
      rewrite fill_journeys_group_by, In_correlation_groups.
      exists j, (filter (has_key String.eqb journey_of j)
                   (filter (has_key Z.eqb (bucket_of w) b) anomaly_events)).
      split; [|split; [exact Hlen|]].
      * apply (In_group_by _ _ _ String.eqb_eq). split; [reflexivity|].
        intros E. rewrite E in Hlen. simpl in Hlen. lia.
      * unfold group_of. now rewrite (filter_in_group w b j _ Hj).
Qed.

(** ** Properties of [correlate_anomalies] *)


Lemma NoDup_append (A : Type) (l1 l2 : list A) :
  NoDup l1 -> NoDup l2 -> (forall x, In x l1 -> ~ In x l2) ->
  NoDup (l1 ++ l2).
Proof.
  intros H1 H2 Hd. induction H1 as [|x l1 Hx H1 IH]; [exact H2|].
  simpl. constructor.
  - rewrite in_app_iff. intros [H|H]; [now apply Hx|].
    apply (Hd x); [now left|exact H].
  - apply IH. intros y Hy. apply Hd. now right.
Qed.

Lemma NoDup_correlation_groups b journey_events :
  NoDup (map fst journey_events) ->
  NoDup (CrossEnvironmentCorrelator.correlation_groups b journey_events).
Proof.
  induction journey_events as [|[j l] rest IH]; intros Hnd;
    [constructor|].
  inversion Hnd as [|? ? Hj Hrest]; subst. simpl.
  destruct (1 <? length l)%nat; [|now apply IH].
  constructor; [|now apply IH].
  rewrite In_correlation_groups. intros [j' [l' [HI [_ E]]]].
  injection E as _ _ <-. apply Hj. apply (in_map fst) in HI. exact HI.
Qed.

Lemma In_correlate_bucket b evs g :
  In g (CrossEnvironmentCorrelator.correlate_bucket b evs) ->
  events g <> [] /\ forall e, In e (events g) -> In e evs.
Proof.
  unfold CrossEnvironmentCorrelator.correlate_bucket.
  destruct (length evs <=? 1)%nat; [intros []|].
  rewrite fill_journeys_group_by, In_correlation_groups.
  intros [j [l [HI [Hlen ->]]]]. simpl.
  apply (In_group_by _ _ _ String.eqb_eq) in HI as [-> Hne].
  split; [exact Hne|]. intros e He. now apply filter_In in He.
Qed.

Lemma NoDup_correlate_bucket b evs :
  NoDup (CrossEnvironmentCorrelator.correlate_bucket b evs).
Proof.
  unfold CrossEnvironmentCorrelator.correlate_bucket.
  destruct (length evs <=? 1)%nat; [constructor|].
  apply NoDup_correlation_groups. rewrite fill_journeys_group_by.
  apply (tidy_group_by _ _ String.eqb String.eqb_eq).
  split; [constructor|intros ? ? []].
Qed.

Lemma NoDup_correlate_buckets w time_buckets :
  NoDup (map fst time_buckets) ->
  (forall b evs e, In (b, evs) time_buckets -> In e evs ->
                   bucket_of w e = Some b) ->
  NoDup (CrossEnvironmentCorrelator.correlate_buckets time_buckets).
Proof.
  induction time_buckets as [|[b evs] rest IH]; intros Hnd Hin;
    [constructor|].
  inversion Hnd as [|? ? Hb Hrest]; subst. simpl.
  apply NoDup_append.
  - apply NoDup_correlate_bucket.
  - apply IH; [exact Hrest|]. intros b' evs' e HI. apply Hin. now right.
  - intros g Hg Hg'. apply In_correlate_buckets in Hg'
      as [b' [evs' [HI' Hg']]].
    apply In_correlate_bucket in Hg as [Hne Hsub].
    apply In_correlate_bucket in Hg' as [_ Hsub'].
    destruct (events g) as [|e es]; [now contradiction Hne|].
    pose proof (Hin b evs e (or_introl eq_refl) (Hsub e (or_introl eq_refl)))
      as E1.
    pose proof (Hin b' evs' e (or_intror HI') (Hsub' e (or_introl eq_refl)))
      as E2.
    rewrite E1 in E2. injection E2 as <-.
    apply Hb. apply (in_map fst) in HI'. exact HI'.
Qed.

(** X17. The list that [correlate_anomalies] returns holds no group
    twice, and its groups are these: for each time bucket and each
    non-empty journey id that at least two of the events share, the group
    of all the events of that bucket and journey, in the order in which
    they were given.  So there is one group, and only one, for each such
    bucket and journey; events without a journey id, or alone in their
    bucket and journey, are in no group. *)
Theorem correlation_groups_are_journeys_in_buckets self anomaly_events
    time_window groups :
  CrossEnvironmentCorrelator.correlate_anomalies self anomaly_events
    time_window = inr groups ->
  NoDup groups
  /\ forall g,
       In g groups
       <-> exists bucket journey,
             journey <> ""
             /\ (2 <= length (filter (in_group time_window bucket journey)
                                anomaly_events))%nat
             /\ g = group_of time_window bucket journey anomaly_events.
Proof.
  intros Hc. split.
  - unfold CrossEnvironmentCorrelator.correlate_anomalies in Hc.
    destruct (CrossEnvironmentCorrelator.fill_buckets time_window
                anomaly_events []) as [err|time_buckets] eqn:E;
      [discriminate|].
    injection Hc as <-. apply fill_buckets_inr in E as [-> _].
    apply (NoDup_correlate_buckets time_window).
    + apply (tidy_group_by _ _ Z.eqb Z.eqb_eq).
      split; [constructor|intros ? ? []].
    + intros b evs e HI He.
      apply (In_group_by _ _ _ Z.eqb_eq) in HI as [-> _].
      apply filter_In in He as [_ He]. unfold has_key in He.
      destruct (bucket_of time_window e) as [b'|]; [|discriminate].
      apply Z.eqb_eq in He. now subst.
  - intros g. split.
    + intros HI.
      now apply (correlate_anomalies_spec self anomaly_events time_window
                   groups g Hc) in HI.
    + intros Hex.
      now apply (correlate_anomalies_spec self anomaly_events time_window
                   groups g Hc).
Qed.

Lemma correlation_groups_are_journeys_in_buckets_witness :
  CrossEnvironmentCorrelator.correlate_anomalies
    CrossEnvironmentCorrelator.new anomalies_demo 300
  = inr [group_of 300 0 "checkout" anomalies_demo;
         group_of 300 300 "checkout" anomalies_demo]
  /\ In (group_of 300 300 "checkout" anomalies_demo)
        [group_of 300 0 "checkout" anomalies_demo;
         group_of 300 300 "checkout" anomalies_demo].
Proof.
  assert (E : CrossEnvironmentCorrelator.correlate_anomalies
                CrossEnvironmentCorrelator.new anomalies_demo 300
              = inr [group_of 300 0 "checkout" anomalies_demo;
                     group_of 300 300 "checkout" anomalies_demo])
    by reflexivity.
  split; [exact E|].
  destruct (correlation_groups_are_journeys_in_buckets
              CrossEnvironmentCorrelator.new anomalies_demo 300 _ E)
    as [_ H].
  apply H.
  exists 300, "checkout". split; [discriminate|]. split; [|reflexivity].
  apply Nat.le_refl.
Defined.

Lemma bucket_key_bounds t1 t2 w :
  w <> 0 ->
  CrossEnvironmentCorrelator.bucket_key t1 w
  = CrossEnvironmentCorrelator.bucket_key t2 w ->
  Z.abs (t1 - t2) < Z.abs w.
Proof.
  unfold CrossEnvironmentCorrelator.bucket_key. intros Hw H.
  destruct (Z.lt_total w 0) as [Hneg|[H0|Hpos]]; [|contradiction|].
  - pose proof (Z.mod_neg_bound t1 w Hneg).
    pose proof (Z.mod_neg_bound t2 w Hneg). lia.
  - pose proof (Z.mod_pos_bound t1 w Hpos).
    pose proof (Z.mod_pos_bound t2 w Hpos). lia.
Qed.

(** X18. Two events of one group are events that were given, carry the
    journey id of the group, which is not empty, and their timestamps
    differ by less than the window. *)
Theorem correlated_events_share_journey_and_window self anomaly_events
    time_window groups g e1 e2 :
  CrossEnvironmentCorrelator.correlate_anomalies self anomaly_events
    time_window = inr groups ->
  In g groups -> In e1 (events g) -> In e2 (events g) ->
  In e1 anomaly_events /\ In e2 anomaly_events
  /\ journey_id g <> ""
  /\ e_journey_id e1 = Some (journey_id g)
  /\ e_journey_id e2 = Some (journey_id g)
  /\ exists t1 t2,
       e_timestamp e1 = Some t1 /\ e_timestamp e2 = Some t2
       /\ Z.abs (t1 - t2) < Z.abs time_window.
Proof.
  intros Hc Hg H1 H2.
  assert (Hw : time_window <> 0).
  { unfold CrossEnvironmentCorrelator.correlate_anomalies in Hc.
    destruct (CrossEnvironmentCorrelator.fill_buckets time_window
                anomaly_events []) as [err|time_buckets] eqn:E;
      [discriminate|].
    apply fill_buckets_inr in E as [-> [_ [-> | Hw]]]; [|exact Hw].
    injection Hc as <-. destruct Hg. }
  apply (correlate_anomalies_spec self anomaly_events time_window groups g Hc)
    in Hg as [b [j [Hj [_ ->]]]].
  simpl in *. apply filter_In in H1 as [HI1 G1], H2 as [HI2 G2].
  unfold in_group in G1, G2.
  destruct (e_timestamp e1) as [t1|]; [|discriminate].
  destruct (e_timestamp e2) as [t2|]; [|discriminate].
  destruct (e_journey_id e1) as [j1|]; [|discriminate].
  destruct (e_journey_id e2) as [j2|]; [|discriminate].
  apply andb_true_iff in G1 as [B1 J1], G2 as [B2 J2].
  apply String.eqb_eq in J1, J2. apply Z.eqb_eq in B1, B2. subst j1 j2.
  repeat (split; [first [assumption|reflexivity]|]).
  exists t1, t2. repeat split. apply bucket_key_bounds; [exact Hw|].
  now rewrite B1, B2.
Qed.

Lemma correlated_events_share_journey_and_window_witness :
  exists t1 t2,
    e_timestamp (event_at 300 "checkout") = Some t1
    /\ e_timestamp (event_at 599 "checkout") = Some t2
    /\ Z.abs (t1 - t2) < Z.abs 300.
Proof.
  apply (correlated_events_share_journey_and_window
           CrossEnvironmentCorrelator.new anomalies_demo 300
           [group_of 300 0 "checkout" anomalies_demo;
            group_of 300 300 "checkout" anomalies_demo]
           (group_of 300 300 "checkout" anomalies_demo)
           (event_at 300 "checkout") (event_at 599 "checkout")).
  - reflexivity.
  - right. now left.
  - simpl. now left.
  - simpl. right. now left.
Defined.

(** X19. The buckets are aligned to the multiples of the window, they do
    not slide: two events of one journey one second apart, the second on
    a multiple of the window, are never correlated with each other. *)
Theorem events_across_a_boundary_are_not_correlated self k time_window
    journey fields1 fields2 :
  0 < time_window ->
  CrossEnvironmentCorrelator.correlate_anomalies self
    [{| e_timestamp := Some (k * time_window - 1);
        e_journey_id := Some journey; e_fields := fields1 |};
     {| e_timestamp := Some (k * time_window);
        e_journey_id := Some journey; e_fields := fields2 |}]
    time_window
  = inr [].
Proof.
  intros Hw. unfold CrossEnvironmentCorrelator.correlate_anomalies. simpl.
  destruct (Z.eqb_spec time_window 0) as [|_]; [lia|].
  unfold CrossEnvironmentCorrelator.bucket_key.
  rewrite Z.mod_mul by lia.
  replace ((k * time_window - 1) mod time_window) with (time_window - 1).
  - destruct (Z.eqb_spec (k * time_window - 1 - (time_window - 1))
                (k * time_window - 0)) as [E|_]; [lia|].
    reflexivity.
  - apply Z.mod_unique_pos with (q := k - 1); lia.
Qed.

Lemma events_across_a_boundary_are_not_correlated_witness :
  0 < 300
  /\ CrossEnvironmentCorrelator.correlate_anomalies
       CrossEnvironmentCorrelator.new
       [event_at 299 "checkout"; event_at 300 "checkout"] 300
     = inr [].
Proof.
  split; [reflexivity|].
  exact (events_across_a_boundary_are_not_correlated
           CrossEnvironmentCorrelator.new 1 300 "checkout" [] []
           eq_refl).
Defined.
